(** * Resume analysis service of the smart resume builder

    Shallow embedding of [ResumeAnalysisService] (src/app/page.tsx):
    keyword extraction, the ATS scorer and the general scorer, with the
    JavaScript primitives they are written with; then of the two
    storage services, of the editing handlers of the builder and of the
    public page (src/app/resume/[shareId]/page.tsx).

    Modelling conventions.
    - A JavaScript string is a sequence of UTF-16 code units; this
      development covers the strings whose code units are below 256
      (ASCII and Latin-1), one [ascii] per code unit.  In that range
      [toLowerCase] never produces an ASCII letter from a non-ASCII
      unit, so the character classes below are exact.
    - A JavaScript number is a [number]: a finite value, [NaN] or
      [PosInf].  The only division of the service is between two array
      lengths; extracted keyword arrays have at most 20 entries, and for
      such operands the double-precision quotient, its product with 100
      and [Math.round] of it agree with the exact rational computation
      (a tie [x.5] only occurs when the divisor is 8 or 16, where every
      step is exact), so finite values are exact rationals.
    - The simulated latency ([setTimeout]) carries no result and is
      omitted; the [async] methods are modelled by the value they
      resolve to. *)

From Stdlib Require Import Bool Arith NArith ZArith QArith Qround.
From Stdlib Require Import Ascii String List Lia.
From Stdlib Require Import Permutation Sorted.
Import ListNotations.

Open Scope string_scope.
Open Scope list_scope.

(** ** JavaScript primitives used by the service *)

Module Js.

(** *** Numbers *)

Inductive number : Type :=
| Fin (q : Q)
| NaN
| PosInf.

Definition of_Z (z : Z) : number := Fin (inject_Z z).

(** [a / b] for two array lengths (non-negative integers). *)
Definition div_len (a b : nat) : number :=
  match b with
  | O => match a with O => NaN | S _ => PosInf end
  | S _ => Fin (Z.of_nat a # Pos.of_nat b)
  end.

(** [x * k] for a positive finite constant [k]. *)
Definition mul (x : number) (k : Q) : number :=
  match x with
  | Fin q => Fin (q * k)
  | NaN => NaN
  | PosInf => PosInf
  end.

(** [Math.round]: nearest integer, ties towards plus infinity. *)
Definition Math_round (x : number) : number :=
  match x with
  | Fin q => of_Z (Qfloor (q + (1 # 2)))
  | NaN => NaN
  | PosInf => PosInf
  end.

(** [Math.max(k, x)] and [Math.min(k, x)] for a finite constant [k];
    both return [NaN] as soon as an argument is [NaN]. *)
Definition Math_max (k : Z) (x : number) : number :=
  match x with
  | Fin q => if Qle_bool q (inject_Z k) then of_Z k else Fin q
  | NaN => NaN
  | PosInf => PosInf
  end.

Definition Math_min (k : Z) (x : number) : number :=
  match x with
  | Fin q => if Qle_bool (inject_Z k) q then of_Z k else Fin q
  | NaN => NaN
  | PosInf => of_Z k
  end.

(** *** Characters *)

Definition code (c : ascii) : N := N_of_ascii c.

Definition in_range (lo hi : N) (c : ascii) : bool :=
  ((lo <=? code c) && (code c <=? hi))%N.

(** [\d] *)
Definition is_digit (c : ascii) : bool := in_range 48 57 c.

(** [\w] is [[A-Za-z0-9_]]. *)
Definition is_word (c : ascii) : bool :=
  in_range 65 90 c || in_range 97 122 c || is_digit c || (code c =? 95)%N.

(** [\s] below 256: tab, line feed, vertical tab, form feed, carriage
    return, space and the no-break space. *)
Definition is_space (c : ascii) : bool :=
  in_range 9 13 c || (code c =? 32)%N || (code c =? 160)%N.

(** Code units with a lower-case counterpart below 256: [A-Z] and the
    Latin-1 capitals U+00C0..U+00DE except the multiplication sign. *)
Definition has_lower (c : ascii) : bool :=
  in_range 65 90 c || (in_range 192 222 c && negb (code c =? 215)%N).

Definition char_toLowerCase (c : ascii) : ascii :=
  if has_lower c then ascii_of_N (code c + 32) else c.

(** *** Strings *)

Fixpoint map_chars (f : ascii -> ascii) (s : string) : string :=
  match s with
  | EmptyString => EmptyString
  | String c s' => String (f c) (map_chars f s')
  end.

Definition toLowerCase (s : string) : string := map_chars char_toLowerCase s.

Fixpoint startsWith (s p : string) {struct p} : bool :=
  match p, s with
  | EmptyString, _ => true
  | String _ _, EmptyString => false
  | String a p', String b s' => Ascii.eqb a b && startsWith s' p'
  end.

(** [s.includes(sub)] *)
Fixpoint includes (s sub : string) : bool :=
  startsWith s sub ||
  match s with
  | EmptyString => false
  | String _ s' => includes s' sub
  end.

(** [s.split(/\s+/)]: the pieces between maximal runs of white space.
    The result is never empty: the empty string gives [[""]], and a
    string that starts or ends with white space gives an empty first
    or last piece. *)
Fixpoint split_ws_from (in_ws : bool) (cur s : string) : list string :=
  match s with
  | EmptyString => [cur]
  | String c s' =>
      if is_space c then
        if in_ws then split_ws_from true cur s'
        else cur :: split_ws_from true EmptyString s'
      else split_ws_from false (cur ++ String c EmptyString)%string s'
  end.

Definition split_ws (s : string) : list string :=
  split_ws_from false EmptyString s.

(** *** Arrays *)

(** [arr.indexOf(x)] on an array of strings: the first index holding
    [x], or -1. *)
Fixpoint indexOf_from (i : Z) (arr : list string) (x : string) : Z :=
  match arr with
  | [] => (-1)%Z
  | y :: rest => if String.eqb y x then i else indexOf_from (i + 1)%Z rest x
  end.

Definition indexOf (arr : list string) (x : string) : Z := indexOf_from 0 arr x.

(** [arr.filter((x, index, arr) => f x index arr)] *)
Fixpoint filteri_from (f : string -> Z -> list string -> bool)
         (whole : list string) (i : Z) (l : list string) : list string :=
  match l with
  | [] => []
  | x :: rest =>
      if f x i whole then x :: filteri_from f whole (i + 1)%Z rest
      else filteri_from f whole (i + 1)%Z rest
  end.

Definition filteri (f : string -> Z -> list string -> bool)
           (arr : list string) : list string :=
  filteri_from f arr 0 arr.

(** [arr.slice(0, n)] *)
Definition slice0 {A : Type} (n : nat) (arr : list A) : list A := firstn n arr.

(** [arr.join(sep)] *)
Definition join (sep : string) (arr : list string) : string :=
  String.concat sep arr.

(** Truthiness of a string: every string but the empty one. *)
Definition truthy (s : string) : bool :=
  match s with EmptyString => false | String _ _ => true end.

(** *** Regular expressions

    A pattern is embedded as an anchored matcher in continuation
    style: [m k s] holds when a prefix of [s] matches and the
    continuation [k] accepts what follows.  [test] searches every
    start position, as [RegExp.prototype.test] does for a pattern
    without flags [g] and [y]. *)

Definition matcher : Type := string -> bool.

Definition accept : matcher := fun _ => true.

(** A literal character. *)
Definition chr (a : ascii) (k : matcher) : matcher :=
  fun s => match s with
           | EmptyString => false
           | String c s' => Ascii.eqb c a && k s'
           end.

(** [\d+], with backtracking over the number of digits taken. *)
Fixpoint digits1 (k : matcher) (s : string) : bool :=
  match s with
  | EmptyString => false
  | String c s' => is_digit c && (digits1 k s' || k s')
  end.

(** A literal word under flag [i]: two code units below 256 are equal
    up to case exactly when their lower-case forms coincide. *)
Fixpoint word_i (w : string) (k : matcher) (s : string) : bool :=
  match w with
  | EmptyString => k s
  | String a w' =>
      match s with
      | EmptyString => false
      | String c s' =>
          Ascii.eqb (char_toLowerCase c) (char_toLowerCase a) && word_i w' k s'
      end
  end.

(** An alternation of literal words under flag [i]. *)
Definition words_i (ws : list string) (k : matcher) : matcher :=
  fun s => existsb (fun w => word_i w k s) ws.

Definition alt (m1 m2 : matcher) : matcher := fun s => m1 s || m2 s.

Fixpoint test (m : matcher) (s : string) : bool :=
  m s ||
  match s with
  | EmptyString => false
  | String _ s' => test m s'
  end.

(** A pattern that starts with [^] is tried at position 0 only. *)
Definition test_anchored (m : matcher) (s : string) : bool := m s.

(** [x < k] for a finite constant [k]. *)
Definition lt (x : number) (k : Z) : bool :=
  match x with
  | Fin q => negb (Qle_bool (inject_Z k) q)
  | NaN => false
  | PosInf => false
  end.

End Js.

Import Js.

(** ** Keyword extraction *)

(** [commonWords]: the stop-word set; only membership is used. *)
Definition commonWords : list string :=
  [ "the"; "and"; "or"; "but"; "in"; "on"; "at"; "to"; "for"; "of"; "with";
    "by"; "is"; "are"; "was"; "were"; "be"; "been"; "have"; "has"; "had";
    "do"; "does"; "did"; "will"; "would"; "could"; "should"; "may"; "might";
    "can"; "must"; "shall" ].

Definition commonWords_has (w : string) : bool :=
  existsb (String.eqb w) commonWords.

(** [.replace(/[^\w\s]/g, " ")] *)
Definition replace_nonword (s : string) : string :=
  map_chars (fun c => if negb (is_word c || is_space c) then " "%char else c) s.

(** The first [filter] callback: [word.length > 2 && !commonWords.has(word)]. *)
Definition significant (word : string) : bool :=
  (2 <? String.length word)%nat && negb (commonWords_has word).

(** The second [filter] callback: [arr.indexOf(word) === index]. *)
Definition first_occurrence (word : string) (index : Z) (arr : list string) : bool :=
  (indexOf arr word =? index)%Z.

Definition extractKeywords (text : string) : list string :=
  slice0 20
    (filteri first_occurrence
       (filter significant
          (split_ws (replace_nonword (toLowerCase text))))).

(** ** Data model *)

Module PersonalInfo.
Record t : Type := mk {
  fullName : string;
  email : string;
  phone : string;
  location : string;
  website : string;
  linkedin : string;
  summary : string
}.
End PersonalInfo.

Module Experience.
Record t : Type := mk {
  id : string;
  company : string;
  position : string;
  startDate : string;
  endDate : string;
  current : bool;
  description : string
}.
End Experience.

Module Education.
Record t : Type := mk {
  id : string;
  institution : string;
  degree : string;
  field : string;
  startDate : string;
  endDate : string;
  gpa : option string
}.
End Education.

Module Skill.
Record t : Type := mk {
  id : string;
  name : string;
  category : string
}.
End Skill.

Record ResumeData : Type := mkResumeData {
  personalInfo : PersonalInfo.t;
  experience : list Experience.t;
  education : list Education.t;
  skills : list Skill.t
}.

Inductive analysis_type : Type := ats | general.

Record AnalysisResult : Type := mkAnalysisResult {
  type : analysis_type;
  score : number;
  suggestions : list string;
  keywordMatches : option (list string);
  missingKeywords : option (list string);
  strengths : option (list string);
  weaknesses : option (list string);
  industryInsights : option (list string)
}.

Definition initialResumeData : ResumeData :=
  {| personalInfo := PersonalInfo.mk "" "" "" "" "" "" "";
     experience := [];
     education := [];
     skills := [] |}.

(** [arr.push(x)] when [b] holds, on an array threaded as a value. *)
Definition push_if (b : bool) (x : string) (arr : list string) : list string :=
  if b then arr ++ [x] else arr.

(** ** ATS scorer *)

(** The containment test of [calculateATSScore]:
    [jobKeyword.includes(keyword) || keyword.includes(jobKeyword)]. *)
Definition contains_either (keyword jobKeyword : string) : bool :=
  includes jobKeyword keyword || includes keyword jobKeyword.

Definition calculateATSScore (resumeKeywords jobKeywords : list string) : number :=
  let matches :=
    filter (fun keyword => existsb (contains_either keyword) jobKeywords)
           resumeKeywords in
  Math_min 95
    (Math_max 45
       (Math_round (mul (div_len (length matches) (length jobKeywords)) 100))).

(** [/\d+/] *)
Definition re_digits : matcher := digits1 accept.

Definition generateATSSuggestions (missing : list string) (resumeData : ResumeData)
  : list string :=
  let s0 := [] in
  let s1 :=
    push_if (0 <? length missing)%nat
      ("Include these relevant keywords: " ++ join ", " (slice0 5 missing))%string s0 in
  let s2 :=
    push_if (negb (truthy (PersonalInfo.summary (personalInfo resumeData))))
      "Add a professional summary section to highlight your key qualifications" s1 in
  let s3 :=
    if (length (experience resumeData) =? 0)%nat then
      s2 ++ ["Add work experience with quantifiable achievements"]
    else
      let hasQuantifiableResults :=
        existsb (fun exp => test re_digits (Experience.description exp))
                (experience resumeData) in
      push_if (negb hasQuantifiableResults)
        "Include specific numbers and metrics in your experience descriptions" s2 in
  let s4 :=
    push_if (length (skills resumeData) <? 5)%nat
      "Add more relevant technical and soft skills" s3 in
  let s5 := s4 ++ ["Use action verbs to start bullet points (achieved, managed, developed, etc.)"] in
  let s6 := s5 ++ ["Ensure consistent formatting and remove any typos"] in
  slice0 6 s6.

(** The double-quote character, which occurs inside two insight strings. *)
Definition dq : string := String (ascii_of_nat 34) EmptyString.

Definition atsInsights : list string :=
  [ "ATS systems scan for exact keyword matches";
    ("Use standard section headings like " ++ dq ++ "Work Experience" ++ dq
       ++ " and " ++ dq ++ "Education" ++ dq)%string;
    "Avoid images, graphics, and complex formatting";
    ("Include both acronyms and full terms (e.g., " ++ dq ++ "AI" ++ dq
       ++ " and " ++ dq ++ "Artificial Intelligence" ++ dq ++ ")")%string ].

Definition resumeText (resumeData : ResumeData) : string :=
  join " "
    ([PersonalInfo.summary (personalInfo resumeData)]
       ++ map (fun exp => (Experience.position exp ++ " " ++ Experience.company exp
                           ++ " " ++ Experience.description exp)%string)
              (experience resumeData)
       ++ map (fun edu => (Education.degree edu ++ " " ++ Education.field edu
                           ++ " " ++ Education.institution edu)%string)
              (education resumeData)
       ++ map Skill.name (skills resumeData)).

Definition analyzeATS (resumeData : ResumeData) (jobDescription : string)
  : AnalysisResult :=
  let resumeKeywords := extractKeywords (resumeText resumeData) in
  let jobKeywords := extractKeywords jobDescription in
  let keywordMatches :=
    filter (fun keyword =>
              existsb (fun jobKeyword =>
                         includes jobKeyword keyword || includes keyword keyword)
                      jobKeywords)
           resumeKeywords in
  let missingKeywords :=
    slice0 8
      (filter (fun keyword =>
                 negb (existsb (fun resumeKeyword =>
                                  includes resumeKeyword keyword
                                  || includes keyword keyword)
                               resumeKeywords))
              jobKeywords) in
  let score := calculateATSScore resumeKeywords jobKeywords in
  let suggestions := generateATSSuggestions missingKeywords resumeData in
  {| type := ats;
     score := score;
     suggestions := suggestions;
     keywordMatches := Some (slice0 10 keywordMatches);
     missingKeywords := Some missingKeywords;
     strengths := None;
     weaknesses := None;
     industryInsights := Some atsInsights |}.

(** ** General scorer *)

(** [/^(achieved|managed|developed|led|created|implemented|improved|increased|reduced|streamlined)/i] *)
Definition re_action_verbs : matcher :=
  words_i [ "achieved"; "managed"; "developed"; "led"; "created"; "implemented";
            "improved"; "increased"; "reduced"; "streamlined" ] accept.

(** [/\d+%|\$\d+|\d+\+|increased|decreased|improved|reduced/i] *)
Definition re_quantifiable : matcher :=
  alt (digits1 (chr "%" accept))
    (alt (chr "$" (digits1 accept))
       (alt (digits1 (chr "+" accept))
          (words_i ["increased"; "decreased"; "improved"; "reduced"] accept))).

(** [experience.reduce((sum, exp) => sum + exp.description.length, 0)] *)
Definition total_description_length (exps : list Experience.t) : nat :=
  fold_left (fun sum exp => (sum + String.length (Experience.description exp))%nat)
            exps 0%nat.

Definition generateGeneralSuggestions (resumeData : ResumeData) : list string :=
  let summary := PersonalInfo.summary (personalInfo resumeData) in
  let s0 := [] in
  let s1 :=
    if negb (truthy summary) then
      s0 ++ ["Add a compelling professional summary that highlights your unique value proposition"]
    else
      push_if (String.length summary <? 100)%nat
        "Expand your professional summary to better showcase your expertise" s0 in
  let s2 :=
    if (length (experience resumeData) =? 0)%nat then
      s1 ++ ["Add relevant work experience with specific achievements and responsibilities"]
    else
      let avgDescriptionLength :=
        div_len (total_description_length (experience resumeData))
                (length (experience resumeData)) in
      let s1a :=
        push_if (lt avgDescriptionLength 150)
          "Provide more detailed descriptions of your accomplishments in each role" s1 in
      let hasActionVerbs :=
        existsb (fun exp => test_anchored re_action_verbs (Experience.description exp))
                (experience resumeData) in
      push_if (negb hasActionVerbs)
        "Start experience descriptions with strong action verbs" s1a in
  let s3 :=
    push_if (length (education resumeData) =? 0)%nat
      "Include your educational background and relevant certifications" s2 in
  let s4 :=
    push_if (length (skills resumeData) <? 8)%nat
      "Add more relevant skills, including both technical and soft skills" s3 in
  let s5 :=
    push_if (negb (truthy (PersonalInfo.linkedin (personalInfo resumeData))))
      "Add your LinkedIn profile to increase professional credibility" s4 in
  let s6 := s5 ++ ["Tailor your resume for each job application"] in
  let s7 := s6 ++ ["Keep your resume to 1-2 pages for optimal readability"] in
  slice0 6 s7.

(** The three locals that the scoring logic of [analyzeGeneral] updates. *)
Record tally : Type := mkTally {
  t_score : Z;
  t_strengths : list string;
  t_weaknesses : list string
}.

Definition add_score (d : Z) (t : tally) : tally :=
  mkTally (t_score t + d) (t_strengths t) (t_weaknesses t).

Definition push_strength (x : string) (t : tally) : tally :=
  mkTally (t_score t) (t_strengths t ++ [x]) (t_weaknesses t).

Definition push_weakness (x : string) (t : tally) : tally :=
  mkTally (t_score t) (t_strengths t) (t_weaknesses t ++ [x]).

Definition check_summary (r : ResumeData) (t : tally) : tally :=
  let summary := PersonalInfo.summary (personalInfo r) in
  if truthy summary && (100 <? String.length summary)%nat then
    push_strength "Strong professional summary" (add_score 10 t)
  else push_weakness "Missing or weak professional summary" t.

Definition check_experience (r : ResumeData) (t : tally) : tally :=
  if (2 <=? length (experience r))%nat then
    push_strength "Good work experience history" (add_score 15 t)
  else if (length (experience r) =? 1)%nat then add_score 8 t
  else push_weakness "Limited work experience" t.

Definition check_education (r : ResumeData) (t : tally) : tally :=
  if (0 <? length (education r))%nat then
    push_strength "Educational background included" (add_score 10 t)
  else push_weakness "No educational information" t.

Definition check_skills (r : ResumeData) (t : tally) : tally :=
  if (8 <=? length (skills r))%nat then
    push_strength "Comprehensive skills section" (add_score 10 t)
  else if (5 <=? length (skills r))%nat then add_score 5 t
  else push_weakness "Limited skills listed" t.

Definition check_linkedin (r : ResumeData) (t : tally) : tally :=
  if truthy (PersonalInfo.linkedin (personalInfo r)) then
    push_strength "Professional online presence" (add_score 5 t)
  else t.

Definition hasQuantifiableResults (r : ResumeData) : bool :=
  existsb (fun exp => test re_quantifiable (Experience.description exp))
          (experience r).

Definition check_quantifiable (r : ResumeData) (t : tally) : tally :=
  if hasQuantifiableResults r then
    push_strength "Quantifiable achievements mentioned" (add_score 10 t)
  else push_weakness "Lacks quantifiable results" t.

(** The scoring logic, up to the clamp: the locals after the last check. *)
Definition general_tally (r : ResumeData) : tally :=
  check_quantifiable r
    (check_linkedin r
       (check_skills r
          (check_education r
             (check_experience r
                (check_summary r (mkTally 60 [] [])))))).

Definition generalInsights : list string :=
  [ "Recruiters spend an average of 6 seconds reviewing each resume";
    "Quantified achievements are 40% more likely to get attention";
    "Tailored resumes have 2x higher callback rates";
    "Professional formatting increases perceived competence by 30%" ].

Definition analyzeGeneral (resumeData : ResumeData) : AnalysisResult :=
  let t := general_tally resumeData in
  let score := Math_min 95 (Math_max 35 (of_Z (t_score t))) in
  {| type := general;
     score := score;
     suggestions := generateGeneralSuggestions resumeData;
     keywordMatches := None;
     missingKeywords := None;
     strengths := Some (t_strengths t);
     weaknesses := Some (t_weaknesses t);
     industryInsights := Some generalInsights |}.

(** ** Keyword extraction, as a specification

    The contract of the extractor, written independently of the
    JavaScript pipeline: the tokens of a text are its maximal non-empty
    runs of kept characters; duplicates are dropped on second sight. *)

Definition emit (cur : string) (rest : list string) : list string :=
  match cur with
  | EmptyString => rest
  | String _ _ => cur :: rest
  end.

Fixpoint tokens_from (keep : ascii -> bool) (cur s : string) : list string :=
  match s with
  | EmptyString => emit cur []
  | String c s' =>
      if keep c then tokens_from keep (cur ++ String c EmptyString)%string s'
      else emit cur (tokens_from keep EmptyString s')
  end.

Definition tokens (keep : ascii -> bool) (s : string) : list string :=
  tokens_from keep EmptyString s.

Definition mem (x : string) (l : list string) : bool := existsb (String.eqb x) l.

Fixpoint dedup_seen (seen l : list string) : list string :=
  match l with
  | [] => []
  | x :: rest =>
      if mem x seen then dedup_seen seen rest
      else x :: dedup_seen (x :: seen) rest
  end.

Definition dedup (l : list string) : list string := dedup_seen [] l.

Definition keywords_of (keep : ascii -> bool) (text : string) : list string :=
  firstn 20 (dedup (filter significant (tokens keep (toLowerCase text)))).

(** Letters and digits only: the reading of "alphanumeric". *)
Definition is_alnum (c : ascii) : bool :=
  in_range 65 90 c || in_range 97 122 c || is_digit c.

(** [a] occurs in [b] as a contiguous substring. *)
Definition substring_of (a b : string) : Prop :=
  exists pre post : string, b = (pre ++ a ++ post)%string.

(** ** Sample inputs *)

Definition with_summary (s : string) : ResumeData :=
  {| personalInfo := PersonalInfo.mk "" "" "" "" "" "" s;
     experience := [];
     education := [];
     skills := [] |}.

Fixpoint repeat_char (c : ascii) (n : nat) : string :=
  match n with
  | O => EmptyString
  | S n' => String c (repeat_char c n')
  end.

(** A summary of exactly 100 characters. *)
Definition summary100 : string := repeat_char "a" 100.

(** A resume that passes every check of the general scorer. *)
Definition full_resume : ResumeData :=
  {| personalInfo :=
       PersonalInfo.mk "Ada" "" "" "" "" "linkedin.com/in/ada" (repeat_char "a" 150);
     experience :=
       [ Experience.mk "1" "Acme" "Engineer" "" "" false "Increased revenue by 20%";
         Experience.mk "2" "Initech" "Developer" "" "" true "Built tools" ];
     education := [ Education.mk "1" "MIT" "BSc" "Mathematics" "" "" None ];
     skills := map (fun n => Skill.mk n n "Technical")
                   ["go"; "rust"; "sql"; "git"; "css"; "html"; "java"; "perl";
                    "ruby"; "bash"] |}.

(** ** More JavaScript primitives *)

(** [s.trim()]: white space and line terminators removed at both ends;
    below 256 these are the code units of [\s]. *)
Fixpoint trimStart (s : string) : string :=
  match s with
  | EmptyString => EmptyString
  | String c s' => if is_space c then trimStart s' else s
  end.

Fixpoint trimEnd (s : string) : string :=
  match s with
  | EmptyString => EmptyString
  | String c s' =>
      match trimEnd s' with
      | EmptyString => if is_space c then EmptyString else String c EmptyString
      | String d t => String c (String d t)
      end
  end.

Definition trim (s : string) : string := trimEnd (trimStart s).

(** [arr.findIndex(p)]: the first index whose element satisfies [p], or -1. *)
Fixpoint findIndex_from {A : Type} (p : A -> bool) (i : Z) (arr : list A) : Z :=
  match arr with
  | [] => (-1)%Z
  | x :: rest => if p x then i else findIndex_from p (i + 1)%Z rest
  end.

Definition findIndex {A : Type} (p : A -> bool) (arr : list A) : Z :=
  findIndex_from p 0 arr.

(** [arr[i] = v] for an index inside the array, the only case of the
    services below, which assign at an index returned by [findIndex]. *)
Fixpoint assign {A : Type} (arr : list A) (i : nat) (v : A) : list A :=
  match arr, i with
  | [], _ => []
  | _ :: rest, O => v :: rest
  | x :: rest, S i' => x :: assign rest i' v
  end.

(** [arr.sort(cmp)] for a consistent comparator: the stable sort, which
    places [a] before [b] when [cmp a b] is negative and keeps the
    order of elements that compare equal. *)
Fixpoint sort_insert {A : Type} (cmp : A -> A -> Z) (x : A) (sorted : list A) : list A :=
  match sorted with
  | [] => [x]
  | y :: rest =>
      if (cmp x y <=? 0)%Z then x :: y :: rest
      else y :: sort_insert cmp x rest
  end.

Definition sort {A : Type} (cmp : A -> A -> Z) (arr : list A) : list A :=
  fold_right (sort_insert cmp) [] arr.

(** ** Saved resumes (LocalStorageResumeService)

    The storage cell [saved_resumes] is modelled by the array it parses
    to: an absent or unparsable cell reads as the empty array, and
    [JSON.parse(JSON.stringify(x))] is the identity on the plain records
    stored here.  The readings of the clock ([Date.now().toString()],
    [new Date().toISOString()]) are arguments. *)

Module SavedResume.
Record t : Type := mk {
  id : string;
  name : string;
  resumeData : ResumeData;
  createdAt : string;
  updatedAt : string
}.
End SavedResume.

Definition saveResume (id now : string) (name : string) (resumeData : ResumeData)
           (resumes : list SavedResume.t) : string * list SavedResume.t :=
  let newResume := SavedResume.mk id name resumeData now now in
  (id, resumes ++ [newResume]).

Definition loadResume (id : string) (resumes : list SavedResume.t) : option ResumeData :=
  match find (fun r => String.eqb (SavedResume.id r) id) resumes with
  | Some resume => Some (SavedResume.resumeData resume)
  | None => None
  end.

Definition deleteResume (id : string) (resumes : list SavedResume.t) : list SavedResume.t :=
  filter (fun r => negb (String.eqb (SavedResume.id r) id)) resumes.

Definition updateResume (now : string) (id name : string) (resumeData : ResumeData)
           (resumes : list SavedResume.t) : list SavedResume.t :=
  let index := findIndex (fun r => String.eqb (SavedResume.id r) id) resumes in
  if negb (index =? -1)%Z then
    match nth_error resumes (Z.to_nat index) with
    | Some old =>
        assign resumes (Z.to_nat index)
               (SavedResume.mk (SavedResume.id old) name resumeData
                               (SavedResume.createdAt old) now)
    | None => resumes
    end
  else resumes.

(** ** Public resumes (LocalStoragePublicSharingService)

    Same conventions for the cell [public_resumes]; the share identifier
    drawn from [Math.random] is an argument. *)

Module PublicResume.
Record t : Type := mk {
  id : string;
  shareId : string;
  name : string;
  resumeData : ResumeData;
  createdAt : string;
  isActive : bool;
  viewCount : Z
}.
End PublicResume.

Definition createPublicResume (shareId id now : string) (name : string)
           (resumeData : ResumeData) (resumes : list PublicResume.t)
  : string * list PublicResume.t :=
  let newPublicResume := PublicResume.mk id shareId name resumeData now true 0 in
  (shareId, resumes ++ [newPublicResume]).

Definition getPublicResume (shareId : string) (resumes : list PublicResume.t)
  : option PublicResume.t :=
  find (fun r => String.eqb (PublicResume.shareId r) shareId && PublicResume.isActive r)
       resumes.

Definition updatePublicResume (shareId name : string) (resumeData : ResumeData)
           (resumes : list PublicResume.t) : list PublicResume.t :=
  let index := findIndex (fun r => String.eqb (PublicResume.shareId r) shareId) resumes in
  if negb (index =? -1)%Z then
    match nth_error resumes (Z.to_nat index) with
    | Some old =>
        assign resumes (Z.to_nat index)
               (PublicResume.mk (PublicResume.id old) (PublicResume.shareId old) name
                                resumeData (PublicResume.createdAt old)
                                (PublicResume.isActive old) (PublicResume.viewCount old))
    | None => resumes
    end
  else resumes.

Definition deletePublicResume (shareId : string) (resumes : list PublicResume.t)
  : list PublicResume.t :=
  filter (fun r => negb (String.eqb (PublicResume.shareId r) shareId)) resumes.

Definition incrementViewCount (shareId : string) (resumes : list PublicResume.t)
  : list PublicResume.t :=
  let index := findIndex (fun r => String.eqb (PublicResume.shareId r) shareId) resumes in
  if negb (index =? -1)%Z then
    match nth_error resumes (Z.to_nat index) with
    | Some old =>
        assign resumes (Z.to_nat index)
               (PublicResume.mk (PublicResume.id old) (PublicResume.shareId old)
                                (PublicResume.name old) (PublicResume.resumeData old)
                                (PublicResume.createdAt old) (PublicResume.isActive old)
                                (PublicResume.viewCount old + 1))
    | None => resumes
    end
  else resumes.

Definition togglePublicResumeStatus (shareId : string) (isActive : bool)
           (resumes : list PublicResume.t) : list PublicResume.t :=
  let index := findIndex (fun r => String.eqb (PublicResume.shareId r) shareId) resumes in
  if negb (index =? -1)%Z then
    match nth_error resumes (Z.to_nat index) with
    | Some old =>
        assign resumes (Z.to_nat index)
               (PublicResume.mk (PublicResume.id old) (PublicResume.shareId old)
                                (PublicResume.name old) (PublicResume.resumeData old)
                                (PublicResume.createdAt old) isActive
                                (PublicResume.viewCount old))
    | None => resumes
    end
  else resumes.

(** The effect of the public page (src/app/resume/[shareId]/page.tsx):
    the resume shown, the error shown, and the cell afterwards. *)
Record PublicPage : Type := mkPublicPage {
  publicResume : option PublicResume.t;
  error : option string;
  stored : list PublicResume.t
}.

Definition loadPublicResume (shareId : string) (resumes : list PublicResume.t)
  : PublicPage :=
  match getPublicResume shareId resumes with
  | Some resume => mkPublicPage (Some resume) None (incrementViewCount shareId resumes)
  | None => mkPublicPage None (Some "Resume not found or no longer available") resumes
  end.

(** ** Editing the resume (the [setResumeData] updaters of ResumeBuilder)

    Each handler is modelled by the function it passes to
    [setResumeData]; the identifier read from the clock is an argument.
    A field key carries the type of its field, as every call site passes
    a value of that type. *)

Module PersonalInfoKey.
Inductive t : Type :=
| fullName | email | phone | location | website | linkedin | summary.
End PersonalInfoKey.

Module ExperienceKey.
Inductive t : Type -> Type :=
| id : t string
| company : t string
| position : t string
| startDate : t string
| endDate : t string
| current : t bool
| description : t string.
End ExperienceKey.

Module EducationKey.
Inductive t : Type :=
| id | institution | degree | field | startDate | endDate | gpa.
End EducationKey.

(** [{ ...info, [field]: value }] *)
Definition PersonalInfo_set (field : PersonalInfoKey.t) (value : string)
           (info : PersonalInfo.t) : PersonalInfo.t :=
  let '(PersonalInfo.mk a b c d e f g) := info in
  match field with
  | PersonalInfoKey.fullName => PersonalInfo.mk value b c d e f g
  | PersonalInfoKey.email => PersonalInfo.mk a value c d e f g
  | PersonalInfoKey.phone => PersonalInfo.mk a b value d e f g
  | PersonalInfoKey.location => PersonalInfo.mk a b c value e f g
  | PersonalInfoKey.website => PersonalInfo.mk a b c d value f g
  | PersonalInfoKey.linkedin => PersonalInfo.mk a b c d e value g
  | PersonalInfoKey.summary => PersonalInfo.mk a b c d e f value
  end.

(** [{ ...exp, [field]: value }] *)
Definition Experience_set {A : Type} (field : ExperienceKey.t A)
  : A -> Experience.t -> Experience.t :=
  match field in ExperienceKey.t T return T -> Experience.t -> Experience.t with
  | ExperienceKey.id =>
      fun v '(Experience.mk a b c d e f g) => Experience.mk v b c d e f g
  | ExperienceKey.company =>
      fun v '(Experience.mk a b c d e f g) => Experience.mk a v c d e f g
  | ExperienceKey.position =>
      fun v '(Experience.mk a b c d e f g) => Experience.mk a b v d e f g
  | ExperienceKey.startDate =>
      fun v '(Experience.mk a b c d e f g) => Experience.mk a b c v e f g
  | ExperienceKey.endDate =>
      fun v '(Experience.mk a b c d e f g) => Experience.mk a b c d v f g
  | ExperienceKey.current =>
      fun v '(Experience.mk a b c d e f g) => Experience.mk a b c d e v g
  | ExperienceKey.description =>
      fun v '(Experience.mk a b c d e f g) => Experience.mk a b c d e f v
  end.

(** The key of the identifier itself. *)
Definition ExperienceKey_is_id {A : Type} (field : ExperienceKey.t A) : bool :=
  match field with
  | ExperienceKey.id => true
  | _ => false
  end.

(** [{ ...edu, [field]: value }] *)
Definition Education_set (field : EducationKey.t) (value : string)
           (edu : Education.t) : Education.t :=
  let '(Education.mk a b c d e f g) := edu in
  match field with
  | EducationKey.id => Education.mk value b c d e f g
  | EducationKey.institution => Education.mk a value c d e f g
  | EducationKey.degree => Education.mk a b value d e f g
  | EducationKey.field => Education.mk a b c value e f g
  | EducationKey.startDate => Education.mk a b c d value f g
  | EducationKey.endDate => Education.mk a b c d e value g
  | EducationKey.gpa => Education.mk a b c d e f (Some value)
  end.

Definition updatePersonalInfo (field : PersonalInfoKey.t) (value : string)
           (prev : ResumeData) : ResumeData :=
  {| personalInfo := PersonalInfo_set field value (personalInfo prev);
     experience := experience prev;
     education := education prev;
     skills := skills prev |}.

Definition addExperience (id : string) (prev : ResumeData) : ResumeData :=
  let newExp := Experience.mk id "" "" "" "" false "" in
  {| personalInfo := personalInfo prev;
     experience := experience prev ++ [newExp];
     education := education prev;
     skills := skills prev |}.

Definition updateExperience {A : Type} (id : string) (field : ExperienceKey.t A)
           (value : A) (prev : ResumeData) : ResumeData :=
  {| personalInfo := personalInfo prev;
     experience :=
       map (fun exp => if String.eqb (Experience.id exp) id
                       then Experience_set field value exp else exp)
           (experience prev);
     education := education prev;
     skills := skills prev |}.

Definition removeExperience (id : string) (prev : ResumeData) : ResumeData :=
  {| personalInfo := personalInfo prev;
     experience := filter (fun exp => negb (String.eqb (Experience.id exp) id))
                          (experience prev);
     education := education prev;
     skills := skills prev |}.

Definition addEducation (id : string) (prev : ResumeData) : ResumeData :=
  let newEdu := Education.mk id "" "" "" "" "" (Some "") in
  {| personalInfo := personalInfo prev;
     experience := experience prev;
     education := education prev ++ [newEdu];
     skills := skills prev |}.

Definition updateEducation (id : string) (field : EducationKey.t) (value : string)
           (prev : ResumeData) : ResumeData :=
  {| personalInfo := personalInfo prev;
     experience := experience prev;
     education :=
       map (fun edu => if String.eqb (Education.id edu) id
                       then Education_set field value edu else edu)
           (education prev);
     skills := skills prev |}.

Definition removeEducation (id : string) (prev : ResumeData) : ResumeData :=
  {| personalInfo := personalInfo prev;
     experience := experience prev;
     education := filter (fun edu => negb (String.eqb (Education.id edu) id))
                         (education prev);
     skills := skills prev |}.

(** [addSkill] returns before [setResumeData] when the name is blank. *)
Definition addSkill (id : string) (name category : string) (prev : ResumeData)
  : ResumeData :=
  if negb (truthy (trim name)) then prev
  else
    let newSkill :=
      Skill.mk id (trim name) (if truthy category then category else "General") in
    {| personalInfo := personalInfo prev;
       experience := experience prev;
       education := education prev;
       skills := skills prev ++ [newSkill] |}.

Definition removeSkill (id : string) (prev : ResumeData) : ResumeData :=
  {| personalInfo := personalInfo prev;
     experience := experience prev;
     education := education prev;
     skills := filter (fun skill => negb (String.eqb (Skill.id skill) id))
                      (skills prev) |}.

(** ** Running an analysis ([analyzeResume])

    The value left in [analysisResult]: it is reset to [null] first, and
    the ATS branch returns before any analysis when the job description
    is blank.  The analysis itself raises no exception, so the fallback
    of the [catch] block is not reached. *)
Definition analyzeResume (type : analysis_type) (jobDescription : string)
           (resumeData : ResumeData) : option AnalysisResult :=
  match type with
  | ats =>
      if negb (truthy (trim jobDescription)) then None
      else Some (analyzeATS resumeData jobDescription)
  | general => Some (analyzeGeneral resumeData)
  end.

(** ** Saving, loading and deleting from the builder

    The component state that the storage handlers read and write,
    together with the storage cell.  A handler is modelled by the state
    it leaves once it has run to completion, handlers running one at a
    time.  [getTime] stands for [new Date(s).getTime()] on the ISO
    strings that the services write. *)

Module App.

Record state : Type := mkState {
  resumeData : ResumeData;
  currentStep : Z;
  analysisResult : option AnalysisResult;
  savedResumes : list SavedResume.t;
  currentResumeId : option string;
  saveDialogOpen : bool;
  loadDialogOpen : bool;
  resumeName : string;
  isSaving : bool;
  isLoading : bool;
  storage : list SavedResume.t
}.

Section WithClock.

Variable getTime : string -> Z.

Definition getAllResumes (resumes : list SavedResume.t) : list SavedResume.t :=
  sort (fun a b => (getTime (SavedResume.updatedAt b)
                    - getTime (SavedResume.updatedAt a))%Z)
       resumes.

Definition getAllPublicResumes (resumes : list PublicResume.t) : list PublicResume.t :=
  sort (fun a b => (getTime (PublicResume.createdAt b)
                    - getTime (PublicResume.createdAt a))%Z)
       resumes.

Definition loadSavedResumes (st : state) : state :=
  mkState (resumeData st) (currentStep st) (analysisResult st)
          (getAllResumes (storage st))
          (currentResumeId st) (saveDialogOpen st) (loadDialogOpen st)
          (resumeName st) (isSaving st) (isLoading st) (storage st).

(** [if (currentResumeId)]: neither [null] nor the empty string. *)
Definition current_truthy (st : state) : option string :=
  match currentResumeId st with
  | Some id => if truthy id then Some id else None
  | None => None
  end.

Definition handleSaveResume (id now : string) (st : state) : state :=
  if negb (truthy (trim (resumeName st))) then st
  else
    let '(current, storage') :=
      match current_truthy st with
      | Some cur =>
          (currentResumeId st,
           updateResume now cur (resumeName st) (resumeData st) (storage st))
      | None =>
          let '(id', resumes) :=
            saveResume id now (resumeName st) (resumeData st) (storage st) in
          (Some id', resumes)
      end in
    mkState (resumeData st) (currentStep st) (analysisResult st)
            (getAllResumes storage')
            current false (loadDialogOpen st)
            "" false (isLoading st) storage'.

Definition handleLoadResume (id : string) (st : state) : state :=
  match loadResume id (storage st) with
  | Some loadedData =>
      let name :=
        match find (fun r => String.eqb (SavedResume.id r) id) (savedResumes st) with
        | Some resume => SavedResume.name resume
        | None => resumeName st
        end in
      mkState loadedData (currentStep st) (analysisResult st) (savedResumes st)
              (Some id) (saveDialogOpen st) false
              name (isSaving st) false (storage st)
  | None =>
      mkState (resumeData st) (currentStep st) (analysisResult st) (savedResumes st)
              (currentResumeId st) (saveDialogOpen st) (loadDialogOpen st)
              (resumeName st) (isSaving st) false (storage st)
  end.

Definition option_string_eqb (a : option string) (b : string) : bool :=
  match a with
  | Some x => String.eqb x b
  | None => false
  end.

Definition handleDeleteResume (id : string) (st : state) : state :=
  let storage' := deleteResume id (storage st) in
  let reset := option_string_eqb (currentResumeId st) id in
  mkState (resumeData st) (currentStep st) (analysisResult st)
          (getAllResumes storage')
          (if reset then None else currentResumeId st)
          (saveDialogOpen st) (loadDialogOpen st)
          (if reset then "" else resumeName st)
          (isSaving st) (isLoading st) storage'.

Definition handleNewResume (st : state) : state :=
  mkState initialResumeData 0 None (savedResumes st)
          None (saveDialogOpen st) (loadDialogOpen st)
          "" (isSaving st) (isLoading st) (storage st).

(** What the user can do to the state above: the four handlers, the
    load on mount, typing a name, and any edit of the resume. *)
Inductive action : Type :=
| Mount
| SaveResume (id now : string)
| LoadResume (id : string)
| DeleteResume (id : string)
| NewResume
| TypeName (name : string)
| EditResume (update : ResumeData -> ResumeData).

Definition run (a : action) (st : state) : state :=
  match a with
  | Mount => loadSavedResumes st
  | SaveResume id now => handleSaveResume id now st
  | LoadResume id => handleLoadResume id st
  | DeleteResume id => handleDeleteResume id st
  | NewResume => handleNewResume st
  | TypeName name =>
      mkState (resumeData st) (currentStep st) (analysisResult st) (savedResumes st)
              (currentResumeId st) (saveDialogOpen st) (loadDialogOpen st)
              name (isSaving st) (isLoading st) (storage st)
  | EditResume update =>
      mkState (update (resumeData st)) (currentStep st) (analysisResult st)
              (savedResumes st)
              (currentResumeId st) (saveDialogOpen st) (loadDialogOpen st)
              (resumeName st) (isSaving st) (isLoading st) (storage st)
  end.

Definition run_all (actions : list action) (st : state) : state :=
  fold_left (fun s a => run a s) actions st.

End WithClock.

(** The state of a fresh page over a storage cell. *)
Definition initial (cell : list SavedResume.t) : state :=
  mkState initialResumeData 0 None [] None false false "" false false cell.

(** The resume being edited, when there is one, is a stored resume. *)
Definition current_is_stored (st : state) : Prop :=
  match currentResumeId st with
  | Some id => exists r, In r (storage st) /\ SavedResume.id r = id
  | None => True
  end.

End App.

(** * Properties *)

(** ** Sample runs *)

Example extractKeywords_trims_and_filters :
  extractKeywords "  The Quick-brown FOX, and the fox: is at it!  "
  = ["quick"; "brown"; "fox"].
Proof. reflexivity. Qed.

Example split_ws_keeps_empty_ends :
  split_ws " a  b " = [""; "a"; "b"; ""] /\ split_ws "" = [""].
Proof. split; reflexivity. Qed.

Example re_quantifiable_samples :
  test re_quantifiable "grew revenue by 20%" = true /\
  test re_quantifiable "saved $5 a day" = true /\
  test re_quantifiable "10+ years" = true /\
  test re_quantifiable "IMPROVED uptime" = true /\
  test re_quantifiable "20 percent, 5 $" = false.
Proof. repeat split; reflexivity. Qed.

Example re_action_verbs_is_anchored :
  test_anchored re_action_verbs "Led a team" = true /\
  test_anchored re_action_verbs "I led a team" = false.
Proof. split; reflexivity. Qed.

Example full_resume_general :
  t_score (general_tally full_resume) = 120%Z /\
  score (analyzeGeneral full_resume) = of_Z 95 /\
  strengths (analyzeGeneral full_resume)
  = Some [ "Strong professional summary";
           "Good work experience history";
           "Educational background included";
           "Comprehensive skills section";
           "Professional online presence";
           "Quantifiable achievements mentioned" ] /\
  weaknesses (analyzeGeneral full_resume) = Some [].
Proof. repeat split; reflexivity. Qed.

Example ats_half_match :
  score (analyzeATS (with_summary "python developer") "java developer") = of_Z 50.
Proof. reflexivity. Qed.

(** ** Strings *)

Lemma startsWith_spec (s p : string) :
  startsWith s p = true <-> exists post, s = (p ++ post)%string.
Proof.
  revert s. induction p as [|a p IH]; intros s; simpl.
  - split; [intros _; now exists s | reflexivity].
  - destruct s as [|b s].
    + split; [discriminate | intros [post H]; discriminate].
    + rewrite andb_true_iff, IH, Ascii.eqb_eq. split.
      * intros [-> [post ->]]. now exists post.
      * intros [post H]. injection H as -> ->. split; [reflexivity | now exists post].
Qed.

Lemma includes_spec (s sub : string) :
  includes s sub = true <-> substring_of sub s.
Proof.
  unfold substring_of. induction s as [|c s IH]; simpl.
  - rewrite orb_false_r, startsWith_spec. split.
    + intros [post H]. exists EmptyString, post. exact H.
    + intros [pre [post H]]. destruct pre; simpl in H.
      * now exists post.
      * discriminate.
  - rewrite orb_true_iff, startsWith_spec, IH. split.
    + intros [[post H] | [pre [post H]]].
      * exists EmptyString, post. exact H.
      * exists (String c pre), post. simpl. now rewrite H.
    + intros [pre [post H]]. destruct pre as [|d pre]; simpl in H.
      * left. now exists post.
      * right. injection H as _ H. now exists pre, post.
Qed.

Lemma startsWith_refl (s : string) : startsWith s s = true.
Proof.
  induction s as [|c s IH]; simpl; [reflexivity|].
  now rewrite Ascii.eqb_refl.
Qed.

Lemma includes_refl (s : string) : includes s s = true.
Proof.
  destruct s; simpl; [reflexivity|].
  now rewrite Ascii.eqb_refl, startsWith_refl.
Qed.

Lemma word_not_space (c : ascii) : is_word c = true -> is_space c = false.
Proof.
  destruct c as [[] [] [] [] [] [] [] []]; vm_compute; congruence.
Qed.

Lemma space_is_space : is_space " "%char = true.
Proof. reflexivity. Qed.

Lemma significant_nonempty (w : string) : significant w = true -> w <> EmptyString.
Proof. intros H ->. discriminate H. Qed.

Lemma filter_emit (cur : string) (l : list string) :
  filter significant (emit cur l) = filter significant (cur :: l).
Proof. destruct cur; reflexivity. Qed.

(** Splitting the cleaned text on white space and tokenising the text
    on word characters leave the same significant words. *)
Lemma split_tokens (s cur : string) (in_ws : bool) :
  (in_ws = true -> cur = EmptyString) ->
  filter significant (split_ws_from in_ws cur (replace_nonword s))
  = filter significant (tokens_from is_word cur s).
Proof.
  revert cur in_ws. induction s as [|c s IH]; intros cur in_ws Hcur.
  - simpl. now rewrite filter_emit.
  - simpl. destruct (is_word c) eqn:Hw; simpl.
    + rewrite (word_not_space c Hw). now apply IH.
    + assert (Hsp : is_space (if negb (is_space c) then " "%char else c) = true).
      { destruct (is_space c) eqn:Hs; simpl; [exact Hs | reflexivity]. }
      rewrite Hsp, filter_emit. destruct in_ws.
      * rewrite (Hcur eq_refl). simpl. now apply IH.
      * simpl. f_equal. now erewrite IH.
Qed.

(** ** Arrays *)

Lemma mem_In (x : string) (l : list string) : mem x l = true <-> In x l.
Proof.
  unfold mem. rewrite existsb_exists. split.
  - intros [y [Hy He]]. apply String.eqb_eq in He. now subst.
  - intros H. exists x. split; [exact H | apply String.eqb_refl].
Qed.

Lemma mem_false (x : string) (l : list string) : mem x l = false <-> ~ In x l.
Proof.
  rewrite <- mem_In. destruct (mem x l); split; congruence.
Qed.

(** [indexOf] finds the first occurrence: an element absent from a
    prefix is found right after it, and an element of the prefix is
    found inside it. *)
Lemma indexOf_from_fresh (pre rest : list string) (x : string) (i : Z) :
  ~ In x pre ->
  indexOf_from i (pre ++ x :: rest) x = (i + Z.of_nat (length pre))%Z.
Proof.
  revert i. induction pre as [|y pre IH]; intros i Hx; simpl.
  - rewrite String.eqb_refl. lia.
  - destruct (String.eqb y x) eqn:E.
    + apply String.eqb_eq in E. exfalso. apply Hx. now left.
    + rewrite IH; [lia | intros H; apply Hx; now right].
Qed.

Lemma indexOf_from_seen (pre l : list string) (x : string) (i : Z) :
  In x pre ->
  (indexOf_from i (pre ++ l) x < i + Z.of_nat (length pre))%Z.
Proof.
  revert i. induction pre as [|y pre IH]; intros i Hx; simpl.
  - destruct Hx.
  - destruct (String.eqb y x) eqn:E; [lia|].
    destruct Hx as [-> | Hx]; [now rewrite String.eqb_refl in E|].
    specialize (IH (i + 1)%Z Hx). lia.
Qed.

(** The index test of the second [filter] drops exactly the words
    already met. *)
Lemma filteri_first_occurrence (l pre seen : list string) :
  (forall x, In x pre <-> In x seen) ->
  filteri_from first_occurrence (pre ++ l) (Z.of_nat (length pre)) l
  = dedup_seen seen l.
Proof.
  revert pre seen. induction l as [|x l IH]; intros pre seen Hsame; simpl.
  - reflexivity.
  - assert (Hnext : pre ++ x :: l = (pre ++ [x]) ++ l)
      by now rewrite <- app_assoc.
    assert (Hlen : (Z.of_nat (length pre) + 1)%Z = Z.of_nat (length (pre ++ [x])))
      by (rewrite length_app; simpl; lia).
    unfold first_occurrence at 1. unfold indexOf.
    destruct (mem x seen) eqn:Hm.
    + apply mem_In, Hsame in Hm.
      pose proof (indexOf_from_seen pre (x :: l) x 0 Hm) as Hlt.
      destruct (Z.eqb_spec (indexOf_from 0 (pre ++ x :: l) x) (Z.of_nat (length pre)));
        [lia|].
      rewrite Hlen, Hnext. apply IH.
      intros y. rewrite in_app_iff, <- Hsame. simpl. intuition (subst; tauto).
    + apply mem_false in Hm. rewrite <- Hsame in Hm.
      rewrite (indexOf_from_fresh pre l x 0 Hm), Z.add_0_l, Z.eqb_refl.
      rewrite Hlen, Hnext. f_equal. apply IH.
      intros y. rewrite in_app_iff. simpl. rewrite <- Hsame. tauto.
Qed.

Lemma filteri_dedup (l : list string) : filteri first_occurrence l = dedup l.
Proof.
  unfold filteri, dedup.
  exact (filteri_first_occurrence l [] [] (fun x => iff_refl _)).
Qed.

Lemma dedup_seen_In (l seen : list string) (x : string) :
  In x (dedup_seen seen l) <-> In x l /\ ~ In x seen.
Proof.
  revert seen. induction l as [|y l IH]; intros seen; simpl.
  - tauto.
  - destruct (mem y seen) eqn:Hm.
    + apply mem_In in Hm. rewrite IH. intuition (subst; tauto).
    + apply mem_false in Hm. simpl. rewrite IH. simpl.
      destruct (string_dec y x) as [-> | Hne]; intuition congruence.
Qed.

Lemma dedup_seen_NoDup (l seen : list string) : NoDup (dedup_seen seen l).
Proof.
  revert seen. induction l as [|y l IH]; intros seen; simpl.
  - constructor.
  - destruct (mem y seen); [apply IH|].
    constructor; [|apply IH].
    rewrite dedup_seen_In. simpl. tauto.
Qed.

Lemma firstn_In {A : Type} (n : nat) (l : list A) (x : A) :
  In x (firstn n l) -> In x l.
Proof.
  revert l. induction n as [|n IH]; intros [|y l]; simpl; try tauto.
  intros [H | H]; [now left | right; now apply IH].
Qed.

Lemma firstn_NoDup {A : Type} (n : nat) (l : list A) :
  NoDup l -> NoDup (firstn n l).
Proof.
  revert l. induction n as [|n IH]; intros [|y l] H; simpl; try constructor.
  - inversion H; subst. intros Hin. now apply firstn_In in Hin.
  - inversion H; subst. now apply IH.
Qed.

(** ** Keyword extraction *)

(** The pipeline of [extractKeywords] computes the contract with the
    word characters [[A-Za-z0-9_]] as the kept characters. *)
Lemma extractKeywords_keywords_of (text : string) :
  extractKeywords text = keywords_of is_word text.
Proof.
  unfold extractKeywords, keywords_of, slice0, split_ws, tokens.
  rewrite filteri_dedup, split_tokens; [reflexivity | discriminate].
Qed.

Lemma extractKeywords_NoDup (text : string) : NoDup (extractKeywords text).
Proof.
  unfold extractKeywords, slice0. rewrite filteri_dedup.
  apply firstn_NoDup, dedup_seen_NoDup.
Qed.

Lemma extractKeywords_length (text : string) : (length (extractKeywords text) <= 20)%nat.
Proof. apply firstn_le_length. Qed.

Lemma filter_none {A : Type} (f : A -> bool) (l : list A) :
  (forall x, f x = false) -> filter f l = [].
Proof.
  intros Hf. induction l as [|x l IH]; simpl; [reflexivity|].
  now rewrite Hf.
Qed.

Lemma existsb_all_true {A : Type} (f : A -> bool) (l : list A) :
  l <> [] -> (forall x, f x = true) -> existsb f l = true.
Proof.
  intros Hl Hf. destruct l as [|x l]; [congruence|].
  simpl. now rewrite Hf.
Qed.

(** ** Numbers *)

Lemma Math_max_of_Z (k z : Z) : Math_max k (of_Z z) = of_Z (Z.max k z).
Proof.
  unfold Math_max, of_Z, Qle_bool. simpl. rewrite !Z.mul_1_r.
  destruct (Z.leb_spec z k); f_equal; f_equal; lia.
Qed.

Lemma Math_min_of_Z (k z : Z) : Math_min k (of_Z z) = of_Z (Z.min k z).
Proof.
  unfold Math_min, of_Z, Qle_bool. simpl. rewrite !Z.mul_1_r.
  destruct (Z.leb_spec k z); f_equal; f_equal; lia.
Qed.

Lemma of_Z_inj (a b : Z) : of_Z a = of_Z b -> a = b.
Proof. unfold of_Z, inject_Z. congruence. Qed.

(** [Math.round((a / b) * 100)] for a non-zero length [b]: the integer
    [q] with [q - 1/2 <= 100 a / b < q + 1/2]. *)
Lemma round_percent (a b : nat) :
  b <> O ->
  exists q : Z,
    ((2 * q - 1) * Z.of_nat b <= 200 * Z.of_nat a < (2 * q + 1) * Z.of_nat b)%Z /\
    Math_round (mul (div_len a b) 100) = of_Z q.
Proof.
  intros Hb. destruct b as [|b]; [congruence|].
  exists ((200 * Z.of_nat a + Z.of_nat (S b)) / (2 * Z.of_nat (S b)))%Z.
  assert (Hpos : (0 < Z.of_nat (S b))%Z) by lia.
  split.
  - pose proof (Z.mul_div_le (200 * Z.of_nat a + Z.of_nat (S b))
                             (2 * Z.of_nat (S b)) ltac:(lia)) as Hlo.
    pose proof (Z.mul_succ_div_gt (200 * Z.of_nat a + Z.of_nat (S b))
                                  (2 * Z.of_nat (S b)) ltac:(lia)) as Hhi.
    lia.
  - unfold div_len, mul, Math_round, Qfloor, Qplus, Qmult.
    cbn [Qnum Qden]. f_equal. f_equal.
    + lia.
    + rewrite !Pos2Z.inj_mul.
      replace (Z.pos (Pos.of_nat (S b))) with (Z.of_nat (S b))
        by (rewrite <- positive_nat_Z, Nat2Pos.id; [reflexivity | discriminate]).
      lia.
Qed.

(** ** ATS scorer *)

Lemma contains_either_spec (k j : string) :
  contains_either k j = true <-> substring_of k j \/ substring_of j k.
Proof.
  unfold contains_either. now rewrite orb_true_iff, !includes_spec.
Qed.

Lemma calculateATSScore_no_job_keywords (resumeKeywords : list string) :
  calculateATSScore resumeKeywords [] = NaN.
Proof.
  unfold calculateATSScore. rewrite filter_none; reflexivity.
Qed.

Lemma calculateATSScore_formula (resumeKeywords jobKeywords : list string) :
  jobKeywords <> [] ->
  exists q : Z,
    ((2 * q - 1) * Z.of_nat (length jobKeywords)
     <= 200 * Z.of_nat (length (filter (fun k => existsb (contains_either k) jobKeywords)
                                       resumeKeywords))
     < (2 * q + 1) * Z.of_nat (length jobKeywords))%Z /\
    calculateATSScore resumeKeywords jobKeywords = of_Z (Z.min 95 (Z.max 45 q)).
Proof.
  intros Hj. unfold calculateATSScore.
  destruct (round_percent
              (length (filter (fun k => existsb (contains_either k) jobKeywords)
                              resumeKeywords))
              (length jobKeywords)) as [q [Hq Hr]].
  { destruct jobKeywords; [congruence | discriminate]. }
  exists q. split; [exact Hq|].
  now rewrite Hr, Math_max_of_Z, Math_min_of_Z.
Qed.

Lemma analyzeATS_score (r : ResumeData) (jd : string) :
  score (analyzeATS r jd)
  = calculateATSScore (extractKeywords (resumeText r)) (extractKeywords jd).
Proof. reflexivity. Qed.

(** With at least one job keyword the ATS score is an integer of [45,95]. *)
Lemma ats_score_range (r : ResumeData) (jd : string) :
  extractKeywords jd <> [] ->
  exists z : Z, score (analyzeATS r jd) = of_Z z /\ (45 <= z <= 95)%Z.
Proof.
  intros Hj. rewrite analyzeATS_score.
  destruct (calculateATSScore_formula (extractKeywords (resumeText r)) _ Hj)
    as [q [_ Hs]].
  exists (Z.min 95 (Z.max 45 q)). split; [exact Hs | lia].
Qed.

(** C1 (defect).  A job description made of stop-words only is not
    empty, yet it yields no job keyword: the quotient of the score is
    0/0, and neither [Math.max(45, _)] nor [Math.min(95, _)] turns the
    resulting [NaN] into a number of [45,95]. *)
Theorem ats_score_nan_for_stopword_description (r : ResumeData) :
  "the" <> EmptyString /\
  extractKeywords "the" = [] /\
  score (analyzeATS r "the") = NaN.
Proof.
  split; [discriminate|]. split; [reflexivity|].
  rewrite analyzeATS_score.
  change (extractKeywords "the") with (@nil string).
  apply calculateATSScore_no_job_keywords.
Qed.

(** C3.  When the job description yields at least one keyword, the ATS
    score is [round(matchCount / |jobKeywords| * 100)] clamped to
    [45,95]: [matches] below are the resume keywords that are a
    substring of, or contain, some job keyword, each counted once, and
    [q] is the quotient rounded to the nearest integer. *)
Theorem ats_score_formula (r : ResumeData) (jd : string) :
  extractKeywords jd <> [] ->
  exists (matches : list string) (q : Z),
    NoDup matches /\
    (forall k, In k matches <->
               In k (extractKeywords (resumeText r)) /\
               exists j, In j (extractKeywords jd) /\
                         (substring_of k j \/ substring_of j k)) /\
    ((2 * q - 1) * Z.of_nat (length (extractKeywords jd))
     <= 200 * Z.of_nat (length matches)
     < (2 * q + 1) * Z.of_nat (length (extractKeywords jd)))%Z /\
    score (analyzeATS r jd) = of_Z (Z.min 95 (Z.max 45 q)).
Proof.
  intros Hj.
  destruct (calculateATSScore_formula (extractKeywords (resumeText r)) _ Hj)
    as [q [Hq Hs]].
  exists (filter (fun k => existsb (contains_either k) (extractKeywords jd))
                 (extractKeywords (resumeText r))), q.
  split; [apply NoDup_filter, extractKeywords_NoDup|].
  split; [|split; [exact Hq | now rewrite analyzeATS_score]].
  intros k. rewrite filter_In, existsb_exists.
  split; intros [Hk [j [Hin Hc]]]; (split; [exact Hk|]); exists j;
    (split; [exact Hin|]); now apply contains_either_spec.
Qed.

Lemma ats_score_formula_witness :
  exists (matches : list string) (q : Z),
    NoDup matches /\
    (forall k, In k matches <->
               In k (extractKeywords (resumeText (with_summary "python developer"))) /\
               exists j, In j (extractKeywords "java developer") /\
                         (substring_of k j \/ substring_of j k)) /\
    ((2 * q - 1) * Z.of_nat (length (extractKeywords "java developer"))
     <= 200 * Z.of_nat (length matches)
     < (2 * q + 1) * Z.of_nat (length (extractKeywords "java developer")))%Z /\
    score (analyzeATS (with_summary "python developer") "java developer")
    = of_Z (Z.min 95 (Z.max 45 q)).
Proof.
  apply (ats_score_formula (with_summary "python developer") "java developer").
  vm_compute. discriminate.
Defined.

Lemma analyzeATS_keywordMatches (r : ResumeData) (jd : string) :
  extractKeywords jd <> [] ->
  keywordMatches (analyzeATS r jd)
  = Some (firstn 10 (extractKeywords (resumeText r))).
Proof.
  intros Hj. unfold analyzeATS, slice0. cbn [keywordMatches]. do 2 f_equal.
  apply forallb_filter_id, forallb_forall. intros k _.
  apply existsb_all_true; [exact Hj|].
  intros j. now rewrite includes_refl, orb_true_r.
Qed.

(** C6 (defect).  The filter behind [keywordMatches] tests
    [keyword.includes(keyword)], which always holds, where the score
    tests [keyword.includes(jobKeyword)]: "python" is reported as a
    match for the job description "java" although neither word contains
    the other and the score counts no match. *)
Theorem ats_keywordMatches_reports_unrelated_keyword :
  extractKeywords (resumeText (with_summary "python")) = ["python"] /\
  extractKeywords "java" = ["java"] /\
  contains_either "python" "java" = false /\
  keywordMatches (analyzeATS (with_summary "python") "java") = Some ["python"].
Proof. repeat split; reflexivity. Qed.

(** C7.  The missing-keyword test contains [keyword.includes(keyword)],
    which always holds, so a single resume keyword makes every job
    keyword count as present: whenever the resume text yields at least
    one keyword, [missingKeywords] is the empty list. *)
Theorem ats_missingKeywords_degenerate (r : ResumeData) (jd : string) :
  extractKeywords (resumeText r) <> [] ->
  missingKeywords (analyzeATS r jd) = Some [].
Proof.
  intros Hr. unfold analyzeATS, slice0. cbn [missingKeywords]. f_equal.
  rewrite filter_none; [reflexivity|].
  intros k. apply negb_false_iff, existsb_all_true; [exact Hr|].
  intros rk. now rewrite includes_refl, orb_true_r.
Qed.

Lemma ats_missingKeywords_degenerate_witness :
  extractKeywords (resumeText (with_summary "python django")) <> [] /\
  missingKeywords
    (analyzeATS (with_summary "python django") "Java Spring Boot microservices")
  = Some [].
Proof.
  split.
  - vm_compute. discriminate.
  - apply (ats_missingKeywords_degenerate (with_summary "python django")).
    vm_compute. discriminate.
Defined.

(** ** General scorer *)

(** The deltas of the scoring logic, one per check. *)
Lemma general_tally_score (r : ResumeData) :
  t_score (general_tally r)
  = (60
     + (if truthy (PersonalInfo.summary (personalInfo r))
           && (100 <? String.length (PersonalInfo.summary (personalInfo r)))%nat
        then 10 else 0)
     + (if (2 <=? length (experience r))%nat then 15
        else if (length (experience r) =? 1)%nat then 8 else 0)
     + (if (0 <? length (education r))%nat then 10 else 0)
     + (if (8 <=? length (skills r))%nat then 10
        else if (5 <=? length (skills r))%nat then 5 else 0)
     + (if truthy (PersonalInfo.linkedin (personalInfo r)) then 5 else 0)
     + (if hasQuantifiableResults r then 10 else 0))%Z.
Proof.
  unfold general_tally, check_quantifiable, check_linkedin, check_skills,
    check_education, check_experience, check_summary.
  repeat match goal with
         | |- context [if ?b then _ else _] => destruct b
         end; cbn; lia.
Qed.

Lemma general_tally_bounds (r : ResumeData) :
  (60 <= t_score (general_tally r) <= 120)%Z.
Proof.
  rewrite general_tally_score.
  repeat match goal with
         | |- context [if ?b then _ else _] => destruct b
         end; lia.
Qed.

Lemma analyzeGeneral_score (r : ResumeData) :
  score (analyzeGeneral r) = of_Z (Z.min 95 (Z.max 35 (t_score (general_tally r)))).
Proof.
  unfold analyzeGeneral. cbn [score].
  now rewrite Math_max_of_Z, Math_min_of_Z.
Qed.

(** C2 (as stated).  The empty resume does not score 35. *)
Lemma empty_resume_general_score_is_not_35 :
  ~ (score (analyzeGeneral initialResumeData) = of_Z 35).
Proof.
  rewrite analyzeGeneral_score. intros H. apply of_Z_inj in H.
  vm_compute in H. discriminate.
Qed.

(** C2 (amended).  For the empty resume the general score is the base
    score 60, no check adding to it, and the weaknesses list has one
    entry for each of the five gaps: summary, experience, education,
    skills and quantifiable results. *)
Theorem general_empty_resume :
  score (analyzeGeneral initialResumeData) = of_Z 60 /\
  weaknesses (analyzeGeneral initialResumeData)
  = Some [ "Missing or weak professional summary";
           "Limited work experience";
           "No educational information";
           "Limited skills listed";
           "Lacks quantifiable results" ].
Proof. split; reflexivity. Qed.

(** C4 (defect).  A summary of exactly 100 characters earns no +10:
    the scoring test is [summary.length > 100], so the score stays at
    60 and the summary is listed as a weakness, while the suggestion
    check of the same service ([summary.length < 100]) finds nothing to
    expand in it. *)
Theorem general_summary_of_100_characters_scores_nothing :
  String.length summary100 = 100%nat /\
  t_score (general_tally (with_summary summary100)) = 60%Z /\
  score (analyzeGeneral (with_summary summary100)) = of_Z 60 /\
  weaknesses (analyzeGeneral (with_summary summary100))
  = Some [ "Missing or weak professional summary";
           "Limited work experience";
           "No educational information";
           "Limited skills listed";
           "Lacks quantifiable results" ] /\
  ~ In "Expand your professional summary to better showcase your expertise"
       (suggestions (analyzeGeneral (with_summary summary100))).
Proof.
  repeat split; try reflexivity.
  vm_compute. intuition discriminate.
Qed.

(** C9.  The general score is an integer of the interval [35,95]. *)
Theorem general_score_range (r : ResumeData) :
  exists z : Z, score (analyzeGeneral r) = of_Z z /\ (35 <= z <= 95)%Z.
Proof.
  rewrite analyzeGeneral_score. eexists. split; [reflexivity | lia].
Qed.

(** C10.  Every delta is non-negative, so the tally never falls below
    the base of 60: the lower clamp at 35 leaves it unchanged and the
    general score lies in [60,95]. *)
Theorem general_score_at_least_60 (r : ResumeData) :
  (60 <= t_score (general_tally r))%Z /\
  Math_max 35 (of_Z (t_score (general_tally r))) = of_Z (t_score (general_tally r)) /\
  exists z : Z, score (analyzeGeneral r) = of_Z z /\ (60 <= z <= 95)%Z.
Proof.
  pose proof (general_tally_bounds r) as Hb.
  split; [lia|]. split.
  - rewrite Math_max_of_Z. f_equal. lia.
  - rewrite analyzeGeneral_score. eexists. split; [reflexivity | lia].
Qed.

(** C8.  Both suggestion lists have at most 6 entries, and both insight
    lists are the same 4 strings whatever the input. *)
Theorem suggestions_and_insights_bounded (r : ResumeData) (jd : string) :
  (length (suggestions (analyzeGeneral r)) <= 6)%nat /\
  (length (suggestions (analyzeATS r jd)) <= 6)%nat /\
  industryInsights (analyzeGeneral r) = Some generalInsights /\
  industryInsights (analyzeATS r jd) = Some atsInsights /\
  length generalInsights = 4%nat /\
  length atsInsights = 4%nat.
Proof.
  repeat split; try reflexivity.
  - apply firstn_le_length.
  - apply firstn_le_length.
Qed.

(** C5 (as stated).  The underscore is not alphanumeric, yet it is kept
    inside a token: [unit_test] is one keyword, where splitting at every
    non-alphanumeric character gives the two keywords [unit] and [test]. *)
Lemma extractKeywords_keeps_underscore :
  extractKeywords "unit_test" = ["unit_test"] /\
  keywords_of is_alnum "unit_test" = ["unit"; "test"] /\
  extractKeywords "unit_test" <> keywords_of is_alnum "unit_test".
Proof. repeat split; try reflexivity. vm_compute. discriminate. Qed.

(** C5 (amended).  [extractKeywords] lowercases the text, treats every
    character other than an ASCII letter, an ASCII digit or the
    underscore (the class [\w]) as a separator: an accented letter
    separates like punctuation.  It keeps the tokens longer than 2
    characters that are not stop-words, drops every repeated token
    after its first occurrence and keeps at most the first 20; the
    empty string yields no keyword and "cat dog cat bird" yields cat,
    dog, bird. *)
Theorem extractKeywords_contract :
  (forall text : string,
      extractKeywords text = keywords_of is_word text /\
      NoDup (extractKeywords text) /\
      (length (extractKeywords text) <= 20)%nat) /\
  extractKeywords "" = [] /\
  extractKeywords "cat dog cat bird" = ["cat"; "dog"; "bird"].
Proof.
  split; [|split; reflexivity].
  intros text. split; [apply extractKeywords_keywords_of|].
  split; [apply extractKeywords_NoDup | apply extractKeywords_length].
Qed.

(** The letter e with an acute accent (code unit 233) is no word
    character: it splits the words it occurs in. *)
Example extractKeywords_splits_at_accented_letter :
  extractKeywords
    ("caf" ++ String (ascii_of_nat 233)
       (" r" ++ String (ascii_of_nat 233)
          ("sum" ++ String (ascii_of_nat 233) EmptyString)))%string
  = ["caf"; "sum"].
Proof. reflexivity. Qed.

(** ** First match in an array *)

(** [find] and [findIndex] agree: either no element passes the test, or
    both stop at the first element that does. *)
Lemma first_match_split {A : Type} (p : A -> bool) (l : list A) :
  ((forall y, In y l -> p y = false) /\ findIndex p l = (-1)%Z /\ find p l = None)
  \/ exists pre x post,
       l = pre ++ x :: post /\ (forall y, In y pre -> p y = false) /\ p x = true /\
       findIndex p l = Z.of_nat (length pre) /\ find p l = Some x.
Proof.
  unfold findIndex.
  assert (H : forall i,
             ((forall y, In y l -> p y = false) /\ findIndex_from p i l = (-1)%Z
              /\ find p l = None)
             \/ exists pre x post,
                 l = pre ++ x :: post /\ (forall y, In y pre -> p y = false) /\
                 p x = true /\
                 findIndex_from p i l = (i + Z.of_nat (length pre))%Z /\
                 find p l = Some x).
  { induction l as [|a l IH]; intros i; simpl.
    - left. repeat split. intros y [].
    - destruct (p a) eqn:Ha.
      + right. exists [], a, l. simpl. repeat split; try tauto; try lia.
      + destruct (IH (i + 1)%Z) as [[Hall [Hi Hf]] | [pre [x [post [-> [Hpre [Hx [Hi Hf]]]]]]]].
        * left. repeat split; try assumption. intros y [<- | Hy]; auto.
        * right. exists (a :: pre), x, post. simpl. repeat split; try assumption.
          -- intros y [<- | Hy]; auto.
          -- rewrite Hi. lia. }
  destruct (H 0%Z) as [Hn | [pre [x [post [Hl [Hpre [Hx [Hi Hf]]]]]]]]; [now left|].
  right. exists pre, x, post. repeat split; try assumption; try lia.
Qed.

Lemma nth_error_middle {A : Type} (pre post : list A) (x : A) :
  nth_error (pre ++ x :: post) (length pre) = Some x.
Proof. induction pre; simpl; auto. Qed.

Lemma assign_middle {A : Type} (pre post : list A) (x v : A) :
  assign (pre ++ x :: post) (length pre) v = pre ++ v :: post.
Proof. induction pre; simpl; [reflexivity | now f_equal]. Qed.

Lemma find_app_skip {A : Type} (p : A -> bool) (pre l : list A) :
  (forall y, In y pre -> p y = false) -> find p (pre ++ l) = find p l.
Proof.
  intros H. induction pre as [|a pre IH]; simpl; [reflexivity|].
  rewrite H by now left. apply IH. intros y Hy. apply H. now right.
Qed.

Lemma find_none_iff {A : Type} (p : A -> bool) (l : list A) :
  find p l = None <-> forall y, In y l -> p y = false.
Proof.
  split.
  - intros H y Hy. now apply (find_none p l H).
  - intros H. destruct (find p l) eqn:E; [|reflexivity].
    apply find_some in E. destruct E as [Hin Hp]. rewrite H in Hp by assumption.
    discriminate.
Qed.

(** Replacing the first element that passes [p]: the shape of every
    in-place update of the two storage services. *)
Lemma update_first_found {A : Type} (p : A -> bool) (f : A -> A)
      (pre post : list A) (x : A) :
  (forall y, In y pre -> p y = false) -> p x = true ->
  (if negb (findIndex p (pre ++ x :: post) =? -1)%Z then
     match nth_error (pre ++ x :: post) (Z.to_nat (findIndex p (pre ++ x :: post))) with
     | Some old =>
         assign (pre ++ x :: post) (Z.to_nat (findIndex p (pre ++ x :: post))) (f old)
     | None => pre ++ x :: post
     end
   else pre ++ x :: post)
  = pre ++ f x :: post.
Proof.
  intros Hpre Hx.
  destruct (first_match_split p (pre ++ x :: post))
    as [[Hall _] | [pre' [x' [post' [Hl [Hpre' [Hx' [Hi _]]]]]]]].
  - rewrite Hall in Hx; [discriminate|]. apply in_elt.
  - assert (Hlen : length pre' = length pre).
    { destruct (Nat.lt_trichotomy (length pre') (length pre)) as [Hlt | [He | Hgt]];
        [exfalso | exact He | exfalso].
      - assert (Hin : In x' pre).
        { apply (f_equal (fun l => nth_error l (length pre'))) in Hl.
          rewrite nth_error_middle, nth_error_app1 in Hl by assumption.
          now apply nth_error_In in Hl. }
        rewrite (Hpre _ Hin) in Hx'. discriminate.
      - assert (Hin : In x pre').
        { apply (f_equal (fun l => nth_error l (length pre))) in Hl.
          rewrite nth_error_middle, nth_error_app1 in Hl by assumption.
          symmetry in Hl. now apply nth_error_In in Hl. }
        rewrite (Hpre' _ Hin) in Hx. discriminate. }
    rewrite Hi, Hlen.
    replace (Z.of_nat (length pre) =? -1)%Z with false by (symmetry; apply Z.eqb_neq; lia).
    simpl negb. cbv iota. now rewrite Nat2Z.id, nth_error_middle, assign_middle.
Qed.

Lemma update_first_missing {A : Type} (p : A -> bool) (f : A -> A) (l : list A) :
  (forall y, In y l -> p y = false) ->
  (if negb (findIndex p l =? -1)%Z then
     match nth_error l (Z.to_nat (findIndex p l)) with
     | Some old => assign l (Z.to_nat (findIndex p l)) (f old)
     | None => l
     end
   else l)
  = l.
Proof.
  intros Hall.
  destruct (first_match_split p l)
    as [[_ [Hi _]] | [pre [x [post [-> [_ [Hx _]]]]]]].
  - now rewrite Hi.
  - rewrite Hall in Hx; [discriminate|]. apply in_elt.
Qed.

(** Every array splits at its first element passing [p], if any. *)
Lemma split_at_first {A : Type} (p : A -> bool) (l : list A) :
  (forall y, In y l -> p y = false)
  \/ exists pre x post,
       l = pre ++ x :: post /\ (forall y, In y pre -> p y = false) /\ p x = true.
Proof.
  destruct (first_match_split p l) as [[H _] | [pre [x [post [Hl [Hpre [Hx _]]]]]]].
  - now left.
  - right. now exists pre, x, post.
Qed.

Lemma find_app_cases {A : Type} (p : A -> bool) (l1 l2 : list A) :
  find p (l1 ++ l2) = match find p l1 with Some x => Some x | None => find p l2 end.
Proof.
  induction l1 as [|a l1 IH]; simpl; [reflexivity|].
  now destruct (p a).
Qed.

(** ** Saved resumes *)

Lemma updateResume_found (now id name : string) (data : ResumeData)
      (pre post : list SavedResume.t) (old : SavedResume.t) :
  (forall y, In y pre -> String.eqb (SavedResume.id y) id = false) ->
  SavedResume.id old = id ->
  updateResume now id name data (pre ++ old :: post)
  = pre ++ SavedResume.mk id name data (SavedResume.createdAt old) now :: post.
Proof.
  intros Hpre Hold. unfold updateResume.
  rewrite (update_first_found
             (fun r => String.eqb (SavedResume.id r) id)
             (fun o => SavedResume.mk (SavedResume.id o) name data
                                      (SavedResume.createdAt o) now)
             pre post old Hpre).
  - now rewrite Hold.
  - rewrite Hold. apply String.eqb_refl.
Qed.

Lemma updateResume_missing (now id name : string) (data : ResumeData)
      (resumes : list SavedResume.t) :
  (forall y, In y resumes -> String.eqb (SavedResume.id y) id = false) ->
  updateResume now id name data resumes = resumes.
Proof.
  intros H. unfold updateResume.
  exact (update_first_missing _
           (fun o => SavedResume.mk (SavedResume.id o) name data
                                    (SavedResume.createdAt o) now) resumes H).
Qed.

(** [saveResume] then [loadResume] of the returned id gives back the
    saved data, unless an older resume already has that id (two saves
    within the same millisecond): the older resume is then the one
    loaded. *)
Theorem saveResume_then_loadResume (id now name : string) (data : ResumeData)
        (resumes : list SavedResume.t) :
  loadResume (fst (saveResume id now name data resumes))
             (snd (saveResume id now name data resumes))
  = match loadResume id resumes with
    | Some older => Some older
    | None => Some data
    end.
Proof.
  unfold saveResume, loadResume. simpl fst. simpl snd.
  rewrite find_app_cases.
  destruct (find _ resumes); [reflexivity|].
  simpl. now rewrite String.eqb_refl.
Qed.

(** After [deleteResume] the id can no longer be loaded, whatever the
    number of resumes that carried it. *)
Theorem deleteResume_then_loadResume (id : string) (resumes : list SavedResume.t) :
  loadResume id (deleteResume id resumes) = None.
Proof.
  unfold loadResume, deleteResume.
  replace (find (fun r => String.eqb (SavedResume.id r) id)
                (filter (fun r => negb (String.eqb (SavedResume.id r) id)) resumes))
    with (@None SavedResume.t); [reflexivity|].
  symmetry. apply find_none_iff. intros y Hy.
  apply filter_In in Hy. destruct Hy as [_ Hy].
  now apply negb_true_iff in Hy.
Qed.

(** [updateResume] writes the new data when the id is stored and does
    nothing, without any error, when it is not. *)
Theorem updateResume_then_loadResume (now id name : string) (data : ResumeData)
        (resumes : list SavedResume.t) :
  match loadResume id resumes with
  | Some _ => loadResume id (updateResume now id name data resumes) = Some data
  | None => updateResume now id name data resumes = resumes
  end.
Proof.
  destruct (split_at_first (fun r => String.eqb (SavedResume.id r) id) resumes)
    as [Hall | [pre [old [post [-> [Hpre Hold]]]]]].
  - rewrite (updateResume_missing _ _ _ _ _ Hall).
    unfold loadResume. apply find_none_iff in Hall. now rewrite Hall.
  - apply String.eqb_eq in Hold.
    rewrite (updateResume_found now id name data pre post old Hpre Hold).
    unfold loadResume. rewrite !find_app_skip by assumption. simpl.
    now rewrite Hold, !String.eqb_refl.
Qed.

(** [updateResume] keeps the number of resumes, their ids and their
    creation dates. *)
Lemma updateResume_keeps_ids (now id name : string) (data : ResumeData)
        (resumes : list SavedResume.t) :
  map SavedResume.id (updateResume now id name data resumes)
  = map SavedResume.id resumes
  /\ map SavedResume.createdAt (updateResume now id name data resumes)
     = map SavedResume.createdAt resumes.
Proof.
  destruct (split_at_first (fun r => String.eqb (SavedResume.id r) id) resumes)
    as [Hall | [pre [old [post [-> [Hpre Hold]]]]]].
  - now rewrite (updateResume_missing _ _ _ _ _ Hall).
  - apply String.eqb_eq in Hold.
    rewrite (updateResume_found now id name data pre post old Hpre Hold).
    rewrite !map_app. simpl. now rewrite Hold.
Qed.

Lemma find_filter_other {A : Type} (p q : A -> bool) (l : list A) :
  (forall x, p x = true -> q x = true) ->
  find p (filter q l) = find p l.
Proof.
  intros H. induction l as [|a l IH]; simpl; [reflexivity|].
  destruct (q a) eqn:Hq; simpl.
  - now destruct (p a).
  - destruct (p a) eqn:Hp; [|exact IH].
    apply H in Hp. congruence.
Qed.

(** Saving, deleting or updating under one id leaves what is loaded
    under every other id unchanged. *)
Theorem loadResume_other_id (now id id' name : string) (data : ResumeData)
        (resumes : list SavedResume.t) :
  id' <> id ->
  loadResume id' (snd (saveResume id now name data resumes)) = loadResume id' resumes
  /\ loadResume id' (deleteResume id resumes) = loadResume id' resumes
  /\ loadResume id' (updateResume now id name data resumes) = loadResume id' resumes.
Proof.
  intros Hne.
  assert (Hneq : String.eqb id id' = false) by (apply String.eqb_neq; congruence).
  split; [|split].
  - unfold saveResume, loadResume. simpl snd. rewrite find_app_cases.
    destruct (find _ resumes); [reflexivity|]. simpl. now rewrite Hneq.
  - unfold deleteResume, loadResume. rewrite find_filter_other; [reflexivity|].
    intros x Hx. apply String.eqb_eq in Hx. apply negb_true_iff, String.eqb_neq.
    congruence.
  - destruct (split_at_first (fun r => String.eqb (SavedResume.id r) id) resumes)
      as [Hall | [pre [old [post [-> [Hpre Hold]]]]]].
    + now rewrite (updateResume_missing _ _ _ _ _ Hall).
    + apply String.eqb_eq in Hold.
      rewrite (updateResume_found now id name data pre post old Hpre Hold).
      unfold loadResume. rewrite !find_app_cases. destruct (find _ pre); [reflexivity|].
      simpl. now rewrite Hold, Hneq.
Qed.

Lemma loadResume_other_id_witness :
  "2" <> "1" /\
  loadResume "2" (snd (saveResume "1" "t1" "cv" initialResumeData
                                  [SavedResume.mk "2" "old" full_resume "t0" "t0"]))
  = Some full_resume.
Proof.
  split; [discriminate|].
  destruct (loadResume_other_id "t1" "1" "2" "cv" initialResumeData
              [SavedResume.mk "2" "old" full_resume "t0" "t0"]) as [H _].
  - discriminate.
  - rewrite H. reflexivity.
Defined.

(** ** Sorting *)

Lemma sort_insert_perm {A : Type} (cmp : A -> A -> Z) (x : A) (l : list A) :
  Permutation (sort_insert cmp x l) (x :: l).
Proof.
  induction l as [|y l IH]; simpl; [reflexivity|].
  destruct (cmp x y <=? 0)%Z; [reflexivity|].
  rewrite IH. apply perm_swap.
Qed.

Lemma sort_perm {A : Type} (cmp : A -> A -> Z) (l : list A) :
  Permutation (sort cmp l) l.
Proof.
  induction l as [|x l IH]; simpl; [reflexivity|].
  rewrite sort_insert_perm. now constructor.
Qed.

Section Descending.

Context {A : Type} (key : A -> Z).

Let cmp : A -> A -> Z := fun a b => (key b - key a)%Z.
Let ge : A -> A -> Prop := fun a b => (key b <= key a)%Z.

Lemma sort_insert_descending (x : A) (l : list A) :
  StronglySorted ge l -> StronglySorted ge (sort_insert cmp x l).
Proof.
  induction 1 as [|y l Hs IH Hy]; simpl.
  - repeat constructor.
  - unfold cmp at 1. destruct (Z.leb_spec (key y - key x) 0).
    + constructor; [now constructor|].
      constructor; [unfold ge; lia|].
      eapply Forall_impl; [|exact Hy]. unfold ge. intros z Hz. lia.
    + constructor; [exact IH|].
      eapply Permutation_Forall; [symmetry; apply sort_insert_perm|].
      constructor; [unfold ge; lia | exact Hy].
Qed.

Lemma sort_descending (l : list A) : StronglySorted ge (sort cmp l).
Proof.
  induction l as [|x l IH]; simpl; [constructor|].
  now apply sort_insert_descending.
Qed.

End Descending.

(** [getAllResumes] lists every stored resume exactly once, the most
    recently updated first. *)
Theorem getAllResumes_latest_first (getTime : string -> Z)
        (resumes : list SavedResume.t) :
  Permutation (App.getAllResumes getTime resumes) resumes /\
  StronglySorted
    (fun a b => (getTime (SavedResume.updatedAt b)
                 <= getTime (SavedResume.updatedAt a))%Z)
    (App.getAllResumes getTime resumes).
Proof.
  split; [apply sort_perm|].
  exact (sort_descending (fun r => getTime (SavedResume.updatedAt r)) resumes).
Qed.

(** [getAllPublicResumes] lists every public resume exactly once, the
    most recently created first. *)
Lemma getAllPublicResumes_latest_first (getTime : string -> Z)
        (resumes : list PublicResume.t) :
  Permutation (App.getAllPublicResumes getTime resumes) resumes /\
  StronglySorted
    (fun a b => (getTime (PublicResume.createdAt b)
                 <= getTime (PublicResume.createdAt a))%Z)
    (App.getAllPublicResumes getTime resumes).
Proof.
  split; [apply sort_perm|].
  exact (sort_descending (fun r => getTime (PublicResume.createdAt r)) resumes).
Qed.

(** ** Public resumes *)

Lemma updatePublicResume_found (s name : string) (data : ResumeData)
      (pre post : list PublicResume.t) (old : PublicResume.t) :
  (forall y, In y pre -> String.eqb (PublicResume.shareId y) s = false) ->
  String.eqb (PublicResume.shareId old) s = true ->
  updatePublicResume s name data (pre ++ old :: post)
  = pre ++ PublicResume.mk (PublicResume.id old) (PublicResume.shareId old) name data
                           (PublicResume.createdAt old) (PublicResume.isActive old)
                           (PublicResume.viewCount old) :: post.
Proof.
  intros Hpre Hold. unfold updatePublicResume.
  exact (update_first_found _
           (fun o => PublicResume.mk (PublicResume.id o) (PublicResume.shareId o) name
                                     data (PublicResume.createdAt o)
                                     (PublicResume.isActive o) (PublicResume.viewCount o))
           pre post old Hpre Hold).
Qed.

Lemma incrementViewCount_found (s : string)
      (pre post : list PublicResume.t) (old : PublicResume.t) :
  (forall y, In y pre -> String.eqb (PublicResume.shareId y) s = false) ->
  String.eqb (PublicResume.shareId old) s = true ->
  incrementViewCount s (pre ++ old :: post)
  = pre ++ PublicResume.mk (PublicResume.id old) (PublicResume.shareId old)
                           (PublicResume.name old) (PublicResume.resumeData old)
                           (PublicResume.createdAt old) (PublicResume.isActive old)
                           (PublicResume.viewCount old + 1) :: post.
Proof.
  intros Hpre Hold. unfold incrementViewCount.
  exact (update_first_found _
           (fun o => PublicResume.mk (PublicResume.id o) (PublicResume.shareId o)
                                     (PublicResume.name o) (PublicResume.resumeData o)
                                     (PublicResume.createdAt o) (PublicResume.isActive o)
                                     (PublicResume.viewCount o + 1))
           pre post old Hpre Hold).
Qed.

Lemma togglePublicResumeStatus_found (s : string) (b : bool)
      (pre post : list PublicResume.t) (old : PublicResume.t) :
  (forall y, In y pre -> String.eqb (PublicResume.shareId y) s = false) ->
  String.eqb (PublicResume.shareId old) s = true ->
  togglePublicResumeStatus s b (pre ++ old :: post)
  = pre ++ PublicResume.mk (PublicResume.id old) (PublicResume.shareId old)
                           (PublicResume.name old) (PublicResume.resumeData old)
                           (PublicResume.createdAt old) b
                           (PublicResume.viewCount old) :: post.
Proof.
  intros Hpre Hold. unfold togglePublicResumeStatus.
  exact (update_first_found _
           (fun o => PublicResume.mk (PublicResume.id o) (PublicResume.shareId o)
                                     (PublicResume.name o) (PublicResume.resumeData o)
                                     (PublicResume.createdAt o) b
                                     (PublicResume.viewCount o))
           pre post old Hpre Hold).
Qed.

Lemma public_update_missing (s name : string) (data : ResumeData) (b : bool)
      (resumes : list PublicResume.t) :
  (forall y, In y resumes -> String.eqb (PublicResume.shareId y) s = false) ->
  updatePublicResume s name data resumes = resumes
  /\ incrementViewCount s resumes = resumes
  /\ togglePublicResumeStatus s b resumes = resumes.
Proof.
  intros H. unfold updatePublicResume, incrementViewCount, togglePublicResumeStatus.
  repeat split.
  - exact (update_first_missing _
             (fun o => PublicResume.mk (PublicResume.id o) (PublicResume.shareId o) name
                                       data (PublicResume.createdAt o)
                                       (PublicResume.isActive o) (PublicResume.viewCount o))
             resumes H).
  - exact (update_first_missing _
             (fun o => PublicResume.mk (PublicResume.id o) (PublicResume.shareId o)
                                       (PublicResume.name o) (PublicResume.resumeData o)
                                       (PublicResume.createdAt o) (PublicResume.isActive o)
                                       (PublicResume.viewCount o + 1))
             resumes H).
  - exact (update_first_missing _
             (fun o => PublicResume.mk (PublicResume.id o) (PublicResume.shareId o)
                                       (PublicResume.name o) (PublicResume.resumeData o)
                                       (PublicResume.createdAt o) b
                                       (PublicResume.viewCount o))
             resumes H).
Qed.

(** With distinct share ids, the entries after the first one carrying
    [s] do not carry it. *)
Lemma unique_shareId_rest (s : string) (pre post : list PublicResume.t)
      (old : PublicResume.t) :
  NoDup (map PublicResume.shareId (pre ++ old :: post)) ->
  String.eqb (PublicResume.shareId old) s = true ->
  forall y, In y post -> String.eqb (PublicResume.shareId y) s = false.
Proof.
  intros Hnd Hold y Hy. apply String.eqb_eq in Hold. apply String.eqb_neq.
  intros Heq. rewrite map_app in Hnd. simpl in Hnd.
  apply NoDup_remove_2 in Hnd. apply Hnd, in_or_app. right.
  rewrite Hold, <- Heq. now apply in_map.
Qed.

Lemma getPublicResume_none_of (s : string) (l : list PublicResume.t) :
  (forall y, In y l -> String.eqb (PublicResume.shareId y) s = false) ->
  getPublicResume s l = None.
Proof.
  intros H. apply find_none_iff. intros y Hy. now rewrite (H y Hy).
Qed.

(** A new public resume is active, has no view yet, and is the one
    served under its share id, unless an older active resume already
    uses that share id. *)
Theorem createPublicResume_then_get (s id now name : string) (data : ResumeData)
        (resumes : list PublicResume.t) :
  getPublicResume (fst (createPublicResume s id now name data resumes))
                  (snd (createPublicResume s id now name data resumes))
  = match getPublicResume s resumes with
    | Some older => Some older
    | None => Some (PublicResume.mk id s name data now true 0)
    end.
Proof.
  unfold createPublicResume, getPublicResume. simpl fst. simpl snd.
  rewrite find_app_cases. destruct (find _ resumes); [reflexivity|].
  simpl. now rewrite String.eqb_refl.
Qed.

(** With distinct share ids, a resume switched off is no longer served,
    and a stored resume switched on is served with its data and view
    count untouched. *)
Theorem togglePublicResumeStatus_then_get (s : string) (b : bool)
        (resumes : list PublicResume.t) :
  NoDup (map PublicResume.shareId resumes) ->
  getPublicResume s (togglePublicResumeStatus s b resumes)
  = if b then
      option_map
        (fun old => PublicResume.mk (PublicResume.id old) (PublicResume.shareId old)
                                    (PublicResume.name old) (PublicResume.resumeData old)
                                    (PublicResume.createdAt old) true
                                    (PublicResume.viewCount old))
        (find (fun r => String.eqb (PublicResume.shareId r) s) resumes)
    else None.
Proof.
  intros Hnd.
  destruct (split_at_first (fun r => String.eqb (PublicResume.shareId r) s) resumes)
    as [Hall | [pre [old [post [-> [Hpre Hold]]]]]].
  - destruct (public_update_missing s s initialResumeData b resumes Hall) as [_ [_ ->]].
    rewrite (getPublicResume_none_of s resumes Hall).
    apply find_none_iff in Hall. rewrite Hall. now destruct b.
  - rewrite (togglePublicResumeStatus_found s b pre post old Hpre Hold).
    rewrite (find_app_skip _ pre (old :: post) Hpre).
    unfold getPublicResume. rewrite find_app_skip.
    + simpl. rewrite Hold. destruct b; simpl; [reflexivity|].
      apply find_none_iff. intros y Hy.
      now rewrite (unique_shareId_rest s pre post old Hnd Hold y Hy).
    + intros y Hy. now rewrite (Hpre y Hy).
Qed.

Lemma togglePublicResumeStatus_then_get_witness :
  getPublicResume "abc"
    (togglePublicResumeStatus "abc" false
       [PublicResume.mk "1" "abc" "cv" full_resume "t0" true 3;
        PublicResume.mk "2" "xyz" "cv2" initialResumeData "t1" true 0])
  = None.
Proof.
  apply (togglePublicResumeStatus_then_get "abc" false
           [PublicResume.mk "1" "abc" "cv" full_resume "t0" true 3;
            PublicResume.mk "2" "xyz" "cv2" initialResumeData "t1" true 0]).
  simpl. repeat constructor; simpl; intuition discriminate.
Defined.

Lemma incrementViewCount_served (s : string) (resumes : list PublicResume.t)
        (r : PublicResume.t) :
  NoDup (map PublicResume.shareId resumes) ->
  getPublicResume s resumes = Some r ->
  getPublicResume s (incrementViewCount s resumes)
  = Some (PublicResume.mk (PublicResume.id r) (PublicResume.shareId r)
                          (PublicResume.name r) (PublicResume.resumeData r)
                          (PublicResume.createdAt r) (PublicResume.isActive r)
                          (PublicResume.viewCount r + 1)).
Proof.
  intros Hnd Hget.
  destruct (split_at_first (fun r => String.eqb (PublicResume.shareId r) s) resumes)
    as [Hall | [pre [old [post [-> [Hpre Hold]]]]]].
  - rewrite (getPublicResume_none_of s resumes Hall) in Hget. discriminate.
  - rewrite (incrementViewCount_found s pre post old Hpre Hold).
    assert (Hpre' : forall y, In y pre ->
                      String.eqb (PublicResume.shareId y) s && PublicResume.isActive y = false)
      by (intros y Hy; now rewrite (Hpre y Hy)).
    unfold getPublicResume in *. rewrite find_app_skip in * by assumption.
    simpl in *. rewrite Hold in *. simpl in *.
    destruct (PublicResume.isActive old) eqn:Hact.
    + injection Hget as <-. now rewrite Hact.
    + apply find_some in Hget. destruct Hget as [Hin Hr].
      rewrite (unique_shareId_rest s pre post old Hnd Hold r Hin) in Hr. discriminate.
Qed.

(** With distinct share ids, counting a view of a served resume raises
    its view count by exactly one and changes nothing else in it. *)
Theorem incrementViewCount_then_get (s : string) (resumes : list PublicResume.t)
        (r : PublicResume.t) :
  NoDup (map PublicResume.shareId resumes) ->
  getPublicResume s resumes = Some r ->
  getPublicResume s (incrementViewCount s resumes)
  = Some (PublicResume.mk (PublicResume.id r) (PublicResume.shareId r)
                          (PublicResume.name r) (PublicResume.resumeData r)
                          (PublicResume.createdAt r) (PublicResume.isActive r)
                          (PublicResume.viewCount r + 1)).
Proof. apply incrementViewCount_served. Qed.

Lemma incrementViewCount_then_get_witness :
  getPublicResume "abc"
    (incrementViewCount "abc"
       [PublicResume.mk "1" "abc" "cv" full_resume "t0" true 3;
        PublicResume.mk "2" "xyz" "cv2" initialResumeData "t1" true 0])
  = Some (PublicResume.mk "1" "abc" "cv" full_resume "t0" true 4).
Proof.
  apply (incrementViewCount_then_get "abc"
           [PublicResume.mk "1" "abc" "cv" full_resume "t0" true 3;
            PublicResume.mk "2" "xyz" "cv2" initialResumeData "t1" true 0]
           (PublicResume.mk "1" "abc" "cv" full_resume "t0" true 3)).
  - simpl. repeat constructor; simpl; intuition discriminate.
  - reflexivity.
Defined.

(** After [deletePublicResume] nothing is served under the share id. *)
Lemma deletePublicResume_then_get (s : string) (resumes : list PublicResume.t) :
  getPublicResume s (deletePublicResume s resumes) = None.
Proof.
  apply getPublicResume_none_of. intros y Hy.
  apply filter_In in Hy. destruct Hy as [_ Hy]. now apply negb_true_iff in Hy.
Qed.

(** The three in-place updates keep every share id in its place;
    [updatePublicResume] also keeps the status and the view counts, so
    republishing neither revives a link that was switched off nor
    resets its statistics. *)
Theorem public_updates_keep_shareIds (s name : string) (data : ResumeData) (b : bool)
        (resumes : list PublicResume.t) :
  map PublicResume.shareId (updatePublicResume s name data resumes)
  = map PublicResume.shareId resumes
  /\ map PublicResume.isActive (updatePublicResume s name data resumes)
     = map PublicResume.isActive resumes
  /\ map PublicResume.viewCount (updatePublicResume s name data resumes)
     = map PublicResume.viewCount resumes
  /\ map PublicResume.shareId (incrementViewCount s resumes)
     = map PublicResume.shareId resumes
  /\ map PublicResume.shareId (togglePublicResumeStatus s b resumes)
     = map PublicResume.shareId resumes.
Proof.
  destruct (split_at_first (fun r => String.eqb (PublicResume.shareId r) s) resumes)
    as [Hall | [pre [old [post [-> [Hpre Hold]]]]]].
  - destruct (public_update_missing s name data b resumes Hall) as [-> [-> ->]].
    repeat split.
  - rewrite (updatePublicResume_found s name data pre post old Hpre Hold),
      (incrementViewCount_found s pre post old Hpre Hold),
      (togglePublicResumeStatus_found s b pre post old Hpre Hold).
    rewrite !map_app. simpl. repeat split.
Qed.

(** An operation on one share id leaves what is served under every
    other share id unchanged. *)
Theorem getPublicResume_other_shareId (s s' name id now : string) (data : ResumeData)
        (b : bool) (resumes : list PublicResume.t) :
  s' <> s ->
  getPublicResume s' (snd (createPublicResume s id now name data resumes))
  = getPublicResume s' resumes
  /\ getPublicResume s' (updatePublicResume s name data resumes)
     = getPublicResume s' resumes
  /\ getPublicResume s' (deletePublicResume s resumes) = getPublicResume s' resumes
  /\ getPublicResume s' (incrementViewCount s resumes) = getPublicResume s' resumes
  /\ getPublicResume s' (togglePublicResumeStatus s b resumes)
     = getPublicResume s' resumes.
Proof.
  intros Hne.
  assert (Hneq : String.eqb s s' = false) by (apply String.eqb_neq; congruence).
  assert (Hdel : getPublicResume s' (deletePublicResume s resumes)
                 = getPublicResume s' resumes).
  { unfold deletePublicResume, getPublicResume. apply find_filter_other.
    intros x Hx. apply andb_true_iff in Hx. destruct Hx as [Hx _].
    apply String.eqb_eq in Hx. apply negb_true_iff, String.eqb_neq. congruence. }
  assert (Hnew : getPublicResume s' (snd (createPublicResume s id now name data resumes))
                 = getPublicResume s' resumes).
  { unfold createPublicResume, getPublicResume. simpl snd. rewrite find_app_cases.
    destruct (find _ resumes); [reflexivity|]. simpl. now rewrite Hneq. }
  destruct (split_at_first (fun r => String.eqb (PublicResume.shareId r) s) resumes)
    as [Hall | [pre [old [post [-> [Hpre Hold]]]]]].
  - destruct (public_update_missing s name data b resumes Hall) as [-> [-> ->]].
    repeat split; assumption.
  - rewrite (updatePublicResume_found s name data pre post old Hpre Hold),
      (incrementViewCount_found s pre post old Hpre Hold),
      (togglePublicResumeStatus_found s b pre post old Hpre Hold).
    apply String.eqb_eq in Hold.
    repeat split; try assumption;
      unfold getPublicResume; rewrite !find_app_cases;
      destruct (find _ pre); try reflexivity; simpl; now rewrite Hold, Hneq.
Qed.

Lemma getPublicResume_other_shareId_witness :
  getPublicResume "xyz"
    (deletePublicResume "abc"
       [PublicResume.mk "1" "abc" "cv" full_resume "t0" true 3;
        PublicResume.mk "2" "xyz" "cv2" initialResumeData "t1" true 0])
  = Some (PublicResume.mk "2" "xyz" "cv2" initialResumeData "t1" true 0).
Proof.
  destruct (getPublicResume_other_shareId "abc" "xyz" "n" "3" "t2" initialResumeData true
              [PublicResume.mk "1" "abc" "cv" full_resume "t0" true 3;
               PublicResume.mk "2" "xyz" "cv2" initialResumeData "t1" true 0])
    as [_ [_ [H _]]].
  - discriminate.
  - rewrite H. reflexivity.
Defined.

(** The public page, with distinct share ids: a served resume is shown
    with the view count it had before this visit and stored with one
    more view; for an unknown or switched-off share id the page shows
    its error and no view is recorded. *)
Theorem loadPublicResume_counts_the_visit (s : string) (resumes : list PublicResume.t) :
  NoDup (map PublicResume.shareId resumes) ->
  match getPublicResume s resumes with
  | Some r =>
      publicResume (loadPublicResume s resumes) = Some r /\
      error (loadPublicResume s resumes) = None /\
      getPublicResume s (stored (loadPublicResume s resumes))
      = Some (PublicResume.mk (PublicResume.id r) (PublicResume.shareId r)
                              (PublicResume.name r) (PublicResume.resumeData r)
                              (PublicResume.createdAt r) (PublicResume.isActive r)
                              (PublicResume.viewCount r + 1))
  | None =>
      publicResume (loadPublicResume s resumes) = None /\
      error (loadPublicResume s resumes)
      = Some "Resume not found or no longer available" /\
      stored (loadPublicResume s resumes) = resumes
  end.
Proof.
  intros Hnd. unfold loadPublicResume.
  destruct (getPublicResume s resumes) as [r|] eqn:Hget; simpl.
  - repeat split. now apply incrementViewCount_served.
  - repeat split.
Qed.

Lemma loadPublicResume_counts_the_visit_witness :
  stored (loadPublicResume "abc"
            [PublicResume.mk "1" "abc" "cv" full_resume "t0" false 3])
  = [PublicResume.mk "1" "abc" "cv" full_resume "t0" false 3].
Proof.
  pose proof (loadPublicResume_counts_the_visit "abc"
                [PublicResume.mk "1" "abc" "cv" full_resume "t0" false 3]) as H.
  simpl in H. apply H. repeat constructor. simpl. tauto.
Defined.

(** ** Editing the resume *)

Lemma filter_keep_all {A : Type} (f : A -> bool) (l : list A) :
  (forall x, In x l -> f x = true) -> filter f l = l.
Proof.
  intros H. apply forallb_filter_id, forallb_forall. exact H.
Qed.

Lemma negb_eqb_fresh {A : Type} (key : A -> string) (id : string) (l : list A) :
  ~ In id (map key l) ->
  forall x, In x l -> negb (String.eqb (key x) id) = true.
Proof.
  intros Hfresh x Hx. apply negb_true_iff, String.eqb_neq. intros Heq.
  apply Hfresh. rewrite <- Heq. now apply in_map.
Qed.

(** Removing an entry that was just added gives the resume back, when
    the id drawn for it is not carried by an older entry of the same
    section; the ids of the other sections do not matter. *)
Theorem remove_undoes_add (id name category : string) (r : ResumeData) :
  (~ In id (map Experience.id (experience r)) ->
   removeExperience id (addExperience id r) = r)
  /\ (~ In id (map Education.id (education r)) ->
      removeEducation id (addEducation id r) = r)
  /\ (~ In id (map Skill.id (skills r)) ->
      removeSkill id (addSkill id name category r) = r).
Proof.
  destruct r as [info exps edus sks]. simpl.
  unfold removeExperience, addExperience, removeEducation, addEducation,
    removeSkill, addSkill. simpl.
  repeat split; intros Hfresh.
  - rewrite filter_app. simpl. rewrite String.eqb_refl. simpl.
    rewrite app_nil_r, filter_keep_all; [reflexivity|].
    now apply negb_eqb_fresh.
  - rewrite filter_app. simpl. rewrite String.eqb_refl. simpl.
    rewrite app_nil_r, filter_keep_all; [reflexivity|].
    now apply negb_eqb_fresh.
  - destruct (negb (truthy (trim name))); simpl.
    + rewrite filter_keep_all; [reflexivity|]. now apply negb_eqb_fresh.
    + rewrite filter_app. simpl. rewrite String.eqb_refl. simpl.
      rewrite app_nil_r, filter_keep_all; [reflexivity|].
      now apply negb_eqb_fresh.
Qed.

(** In [full_resume] the id 1 is carried by an experience and by an
    education entry but by no skill, and the id go by a skill only. *)
Lemma remove_undoes_add_witness :
  removeSkill "1" (addSkill "1" "coq" "" full_resume) = full_resume
  /\ removeExperience "go" (addExperience "go" full_resume) = full_resume
  /\ removeEducation "go" (addEducation "go" full_resume) = full_resume.
Proof.
  destruct (remove_undoes_add "1" "coq" "" full_resume) as [_ [_ Hskill]].
  destruct (remove_undoes_add "go" "coq" "" full_resume) as [Hexp [Hedu _]].
  split; [|split].
  - apply Hskill. simpl. intuition discriminate.
  - apply Hexp. simpl. intuition discriminate.
  - apply Hedu. simpl. intuition discriminate.
Defined.

(** When the id drawn for a new entry is already carried by older
    entries (two additions within the same millisecond), removing the
    new entry removes the older ones with it. *)
Lemma remove_after_colliding_add (id name category : string) (r : ResumeData) :
  removeExperience id (addExperience id r) = removeExperience id r
  /\ removeEducation id (addEducation id r) = removeEducation id r
  /\ removeSkill id (addSkill id name category r) = removeSkill id r.
Proof.
  unfold removeExperience, addExperience, removeEducation, addEducation,
    removeSkill, addSkill.
  repeat split; simpl.
  - rewrite filter_app. simpl. rewrite String.eqb_refl. simpl. now rewrite app_nil_r.
  - rewrite filter_app. simpl. rewrite String.eqb_refl. simpl. now rewrite app_nil_r.
  - destruct (negb (truthy (trim name))); simpl; [reflexivity|].
    rewrite filter_app. simpl. rewrite String.eqb_refl. simpl. now rewrite app_nil_r.
Qed.

(** Editing a field other than the identifier: the entries keep their
    ids, and of two edits of the same field the last one wins. *)
Theorem updateExperience_last_write_wins {A : Type} (id : string)
        (field : ExperienceKey.t A) (v1 v2 : A) (r : ResumeData) :
  ExperienceKey_is_id field = false ->
  map Experience.id (experience (updateExperience id field v1 r))
  = map Experience.id (experience r)
  /\ updateExperience id field v2 (updateExperience id field v1 r)
     = updateExperience id field v2 r.
Proof.
  intros Hkey.
  assert (Hid : forall v e, Experience.id (Experience_set field v e) = Experience.id e)
    by (intros v [a b c d e f g]; destruct field; try discriminate Hkey; reflexivity).
  assert (Hset : forall e, Experience_set field v2 (Experience_set field v1 e)
                           = Experience_set field v2 e)
    by (intros [a b c d e f g]; destruct field; try discriminate Hkey; reflexivity).
  unfold updateExperience. simpl. split.
  - rewrite map_map. apply map_ext. intros e.
    destruct (String.eqb (Experience.id e) id); [apply Hid | reflexivity].
  - f_equal. rewrite map_map. apply map_ext. intros e.
    destruct (String.eqb (Experience.id e) id) eqn:He.
    + now rewrite Hid, He, Hset.
    + now rewrite He.
Qed.

Lemma updateExperience_last_write_wins_witness :
  map Experience.id
      (experience (updateExperience "1" ExperienceKey.description "x" full_resume))
  = ["1"; "2"]
  /\ updateExperience "1" ExperienceKey.description "y"
       (updateExperience "1" ExperienceKey.description "x" full_resume)
     = updateExperience "1" ExperienceKey.description "y" full_resume.
Proof.
  apply (updateExperience_last_write_wins "1" ExperienceKey.description "x" "y"
           full_resume).
  reflexivity.
Defined.

(** Editing under an id that no entry carries changes nothing. *)
Theorem update_unknown_id {A : Type} (id : string) (field : ExperienceKey.t A)
        (value : A) (key : EducationKey.t) (text : string) (r : ResumeData) :
  ~ In id (map Experience.id (experience r)) ->
  ~ In id (map Education.id (education r)) ->
  updateExperience id field value r = r
  /\ updateEducation id key text r = r.
Proof.
  intros Hexp Hedu. destruct r as [info exps edus sks]. simpl in *.
  unfold updateExperience, updateEducation. simpl. split; f_equal.
  - rewrite <- (map_id exps) at 2. apply map_ext_in. intros e He.
    replace (String.eqb (Experience.id e) id) with false; [reflexivity|].
    symmetry. apply negb_true_iff. now apply (negb_eqb_fresh Experience.id id exps).
  - rewrite <- (map_id edus) at 2. apply map_ext_in. intros e He.
    replace (String.eqb (Education.id e) id) with false; [reflexivity|].
    symmetry. apply negb_true_iff. now apply (negb_eqb_fresh Education.id id edus).
Qed.

Lemma update_unknown_id_witness :
  updateExperience "9" ExperienceKey.current true full_resume = full_resume
  /\ updateEducation "9" EducationKey.gpa "4.0" full_resume = full_resume.
Proof.
  apply (update_unknown_id "9" ExperienceKey.current true EducationKey.gpa "4.0"
           full_resume); simpl; intuition discriminate.
Defined.

(** *** [trim] *)

Lemma trimEnd_idempotent (s : string) : trimEnd (trimEnd s) = trimEnd s.
Proof.
  induction s as [|c s IH]; simpl; [reflexivity|].
  destruct (trimEnd s) as [|d t] eqn:E.
  - destruct (is_space c) eqn:Hc; simpl; [reflexivity | now rewrite Hc].
  - change (trimEnd (String c (String d t))) with
      (match trimEnd (String d t) with
       | EmptyString => if is_space c then EmptyString else String c EmptyString
       | String d' t' => String c (String d' t')
       end).
    now rewrite IH.
Qed.

Lemma trimStart_head (s : string) :
  match trimStart s with
  | EmptyString => True
  | String c _ => is_space c = false
  end.
Proof.
  induction s as [|c s IH]; simpl; [exact I|].
  destruct (is_space c) eqn:Hc; [exact IH | exact Hc].
Qed.

Lemma trimEnd_head (c : ascii) (s : string) :
  is_space c = false -> exists t, trimEnd (String c s) = String c t.
Proof.
  intros Hc. simpl. destruct (trimEnd s); rewrite ?Hc; eauto.
Qed.

Lemma trim_idempotent (s : string) : trim (trim s) = trim s.
Proof.
  unfold trim. pose proof (trimStart_head s) as Hh.
  destruct (trimStart s) as [|c u] eqn:E; [reflexivity|].
  destruct (trimEnd_head c u Hh) as [t Ht]. rewrite Ht.
  simpl trimStart. rewrite Hh, <- Ht. apply trimEnd_idempotent.
Qed.

(** A skill is stored under its trimmed name, and a blank name adds
    nothing: no stored skill name is ever empty or surrounded by white
    space. *)
Theorem addSkill_keeps_names_trimmed (id name category : string) (r : ResumeData) :
  Forall (fun skill => truthy (Skill.name skill) = true
                       /\ trim (Skill.name skill) = Skill.name skill)
         (skills r) ->
  Forall (fun skill => truthy (Skill.name skill) = true
                       /\ trim (Skill.name skill) = Skill.name skill)
         (skills (addSkill id name category r))
  /\ match trim name with
     | EmptyString => addSkill id name category r = r
     | String _ _ =>
         length (skills (addSkill id name category r)) = S (length (skills r))
     end.
Proof.
  intros Hall. unfold addSkill. destruct (trim name) as [|c t] eqn:Ht; simpl.
  - split; [exact Hall | reflexivity].
  - split.
    + apply Forall_app. split; [exact Hall|]. constructor; [|constructor].
      simpl. split; [reflexivity|]. rewrite <- Ht. apply trim_idempotent.
    + rewrite length_app. simpl. lia.
Qed.

Lemma addSkill_keeps_names_trimmed_witness :
  skills (addSkill "1" "  Rocq prover " "" initialResumeData)
  = [Skill.mk "1" "Rocq prover" "General"]
  /\ Forall (fun skill => truthy (Skill.name skill) = true
                          /\ trim (Skill.name skill) = Skill.name skill)
            (skills (addSkill "1" "  Rocq prover " "" initialResumeData)).
Proof.
  split; [reflexivity|].
  apply (addSkill_keeps_names_trimmed "1" "  Rocq prover " "" initialResumeData).
  constructor.
Defined.

(** *** Edits and the general score *)

Lemma existsb_filter_le {A : Type} (f g : A -> bool) (l : list A) :
  existsb f (filter g l) = true -> existsb f l = true.
Proof.
  rewrite !existsb_exists. intros [x [Hx Hf]]. apply filter_In in Hx.
  exists x. tauto.
Qed.

Lemma length_filter_le {A : Type} (f : A -> bool) (l : list A) :
  (length (filter f l) <= length l)%nat.
Proof.
  induction l as [|x l IH]; simpl; [lia|]. destruct (f x); simpl; lia.
Qed.

Ltac split_ifs :=
  repeat match goal with
         | |- context [if ?b then _ else _] => destruct b eqn:?
         end.

Ltac leb_facts :=
  repeat match goal with
         | H : (_ <=? _)%nat = true |- _ => apply Nat.leb_le in H
         | H : (_ <=? _)%nat = false |- _ => apply Nat.leb_gt in H
         | H : (_ <? _)%nat = true |- _ => apply Nat.ltb_lt in H
         | H : (_ <? _)%nat = false |- _ => apply Nat.ltb_ge in H
         | H : (_ =? _)%nat = true |- _ => apply Nat.eqb_eq in H
         | H : (_ =? _)%nat = false |- _ => apply Nat.eqb_neq in H
         end.

(** The general tally only depends on the summary, the LinkedIn field,
    the three counts and the presence of a quantified result, and it
    grows with each of the last four. *)
Lemma general_tally_monotone (r r' : ResumeData) :
  personalInfo r = personalInfo r' ->
  (length (experience r) <= length (experience r'))%nat ->
  (length (education r) <= length (education r'))%nat ->
  (length (skills r) <= length (skills r'))%nat ->
  (hasQuantifiableResults r = true -> hasQuantifiableResults r' = true) ->
  (t_score (general_tally r) <= t_score (general_tally r'))%Z.
Proof.
  intros Hinfo Hexp Hedu Hsk Hq. rewrite !general_tally_score, <- Hinfo.
  destruct (hasQuantifiableResults r) eqn:Hr.
  - rewrite (Hq eq_refl). split_ifs; leb_facts; lia.
  - split_ifs; leb_facts; lia.
Qed.

(** Removing an entry never raises the general tally and adding one
    never lowers it. *)
Theorem general_tally_follows_edits (id name category : string) (r : ResumeData) :
  (t_score (general_tally (removeExperience id r)) <= t_score (general_tally r))%Z
  /\ (t_score (general_tally (removeEducation id r)) <= t_score (general_tally r))%Z
  /\ (t_score (general_tally (removeSkill id r)) <= t_score (general_tally r))%Z
  /\ (t_score (general_tally r) <= t_score (general_tally (addExperience id r)))%Z
  /\ (t_score (general_tally r) <= t_score (general_tally (addEducation id r)))%Z
  /\ (t_score (general_tally r)
      <= t_score (general_tally (addSkill id name category r)))%Z.
Proof.
  repeat split; apply general_tally_monotone; simpl;
    try reflexivity; try lia; try tauto;
    try apply length_filter_le;
    try (rewrite length_app; lia).
  - unfold hasQuantifiableResults. simpl. apply existsb_filter_le.
  - unfold hasQuantifiableResults. simpl. rewrite existsb_app.
    intros ->. reflexivity.
  - unfold addSkill. now destruct (negb (truthy (trim name))).
  - unfold addSkill. now destruct (negb (truthy (trim name))).
  - unfold addSkill. now destruct (negb (truthy (trim name))).
  - unfold addSkill. destruct (negb (truthy (trim name))); simpl;
      [lia | rewrite length_app; lia].
  - unfold addSkill. now destruct (negb (truthy (trim name))).
Qed.

(** ** Keywords *)

Lemma chars_append (a b : string) :
  list_ascii_of_string (a ++ b) = list_ascii_of_string a ++ list_ascii_of_string b.
Proof. induction a as [|c a IH]; simpl; [reflexivity | now rewrite IH]. Qed.

Lemma In_emit (cur k : string) (l : list string) :
  In k (emit cur l) -> k = cur \/ In k l.
Proof. destruct cur; simpl; intuition. Qed.

(** The characters of a token are kept characters of the text. *)
Lemma tokens_from_chars (P : ascii -> Prop) (keep : ascii -> bool) (s cur : string) :
  (forall c, In c (list_ascii_of_string cur) -> P c) ->
  (forall c, In c (list_ascii_of_string s) -> keep c = true -> P c) ->
  forall k, In k (tokens_from keep cur s) ->
            forall c, In c (list_ascii_of_string k) -> P c.
Proof.
  revert cur. induction s as [|a s IH]; intros cur Hcur Hs k Hk c Hc; simpl in Hk.
  - apply In_emit in Hk. destruct Hk as [-> | []]. now apply Hcur.
  - destruct (keep a) eqn:Ha.
    + apply (IH (cur ++ String a EmptyString)%string) with (k := k); try assumption.
      * intros d Hd. rewrite chars_append, in_app_iff in Hd. simpl in Hd.
        destruct Hd as [Hd | [<- | []]]; [now apply Hcur|].
        apply Hs; [now left | exact Ha].
      * intros d Hd. apply Hs. now right.
    + apply In_emit in Hk. destruct Hk as [-> | Hk]; [now apply Hcur|].
      apply (IH EmptyString) with (k := k); try assumption.
      * intros d [].
      * intros d Hd. apply Hs. now right.
Qed.

Lemma lowercase_word_char (c : ascii) :
  is_word (char_toLowerCase c) = true ->
  in_range 97 122 (char_toLowerCase c) || is_digit (char_toLowerCase c)
  || (code (char_toLowerCase c) =? 95)%N = true.
Proof.
  destruct c as [[] [] [] [] [] [] [] []]; vm_compute; congruence.
Qed.

Lemma chars_map_chars (f : ascii -> ascii) (s : string) :
  list_ascii_of_string (map_chars f s) = map f (list_ascii_of_string s).
Proof. induction s as [|c s IH]; simpl; [reflexivity | now rewrite IH]. Qed.

Lemma keywords_of_In (keep : ascii -> bool) (text k : string) :
  In k (keywords_of keep text) ->
  In k (tokens keep (toLowerCase text)) /\ significant k = true.
Proof.
  unfold keywords_of, dedup. intros H. apply firstn_In in H.
  apply dedup_seen_In in H. destruct H as [H _]. now apply filter_In in H.
Qed.

Lemma extractKeywords_In_facts (text k : string) :
  In k (extractKeywords text) ->
  (2 < String.length k)%nat
  /\ ~ In k commonWords
  /\ forall c, In c (list_ascii_of_string k) ->
               in_range 97 122 c || is_digit c || (code c =? 95)%N = true.
Proof.
  rewrite extractKeywords_keywords_of. intros H.
  apply keywords_of_In in H. destruct H as [Htok Hsig].
  unfold significant in Hsig. apply andb_true_iff in Hsig. destruct Hsig as [Hlen Hstop].
  split; [now apply Nat.ltb_lt|]. split.
  - apply negb_true_iff in Hstop. unfold commonWords_has in Hstop.
    intros Hin. apply mem_In in Hin. unfold mem in Hin. congruence.
  - apply (tokens_from_chars
             (fun c => in_range 97 122 c || is_digit c || (code c =? 95)%N = true)
             is_word (toLowerCase text) EmptyString); [intros c [] | | exact Htok].
    intros c Hc Hw. unfold toLowerCase in Hc. rewrite chars_map_chars in Hc.
    apply in_map_iff in Hc. destruct Hc as [d [<- _]]. now apply lowercase_word_char.
Qed.

(** Every extracted keyword has more than 2 characters, is no
    stop-word, and is made of lower-case letters, digits and
    underscores only. *)
Theorem extractKeywords_wellformed (text k : string) :
  In k (extractKeywords text) ->
  (2 < String.length k)%nat
  /\ ~ In k commonWords
  /\ forall c, In c (list_ascii_of_string k) ->
               in_range 97 122 c || is_digit c || (code c =? 95)%N = true.
Proof. apply extractKeywords_In_facts. Qed.

Lemma extractKeywords_wellformed_witness :
  (2 < String.length "fox")%nat
  /\ ~ In "fox" commonWords
  /\ forall c, In c (list_ascii_of_string "fox") ->
               in_range 97 122 c || is_digit c || (code c =? 95)%N = true.
Proof.
  apply (extractKeywords_wellformed "The FOX and the hound").
  vm_compute. tauto.
Defined.

Lemma append_empty_r (s : string) : (s ++ EmptyString)%string = s.
Proof. induction s as [|c s IH]; simpl; [reflexivity | now rewrite IH]. Qed.

Lemma append_snoc (cur w : string) (a : ascii) :
  ((cur ++ String a EmptyString) ++ w)%string = (cur ++ String a w)%string.
Proof. induction cur as [|c cur IH]; simpl; [reflexivity | now rewrite IH]. Qed.

(** A run of kept characters is read into the current token. *)
Lemma tokens_from_word (keep : ascii -> bool) (w cur s : string) :
  (forall c, In c (list_ascii_of_string w) -> keep c = true) ->
  tokens_from keep cur (w ++ s) = tokens_from keep (cur ++ w)%string s.
Proof.
  revert cur. induction w as [|a w IH]; intros cur Hw; simpl.
  - now rewrite append_empty_r.
  - rewrite (Hw a) by now left. rewrite IH by (intros c Hc; apply Hw; now right).
    now rewrite append_snoc.
Qed.

(** Joining non-empty words with a separator that is not kept, and
    tokenising, gives the words back. *)
Lemma tokens_join (keep : ascii -> bool) (sep : ascii) (ks : list string) :
  keep sep = false ->
  (forall k, In k ks -> k <> EmptyString
                        /\ forall c, In c (list_ascii_of_string k) -> keep c = true) ->
  tokens keep (join (String sep EmptyString) ks) = ks.
Proof.
  intros Hsep. unfold tokens, join. induction ks as [|k ks IH]; intros Hks.
  - reflexivity.
  - destruct (Hks k (or_introl eq_refl)) as [Hne Hk].
    assert (Hemit : forall l, emit k l = k :: l) by (destruct k; [congruence | reflexivity]).
    destruct ks as [|k2 ks].
    + simpl. rewrite <- (append_empty_r k) at 1.
      rewrite tokens_from_word by assumption. simpl. apply Hemit.
    + change (String.concat (String sep EmptyString) (k :: k2 :: ks))
        with (k ++ String sep (String.concat (String sep EmptyString) (k2 :: ks)))%string.
      rewrite tokens_from_word by assumption.
      cbn [tokens_from append]. rewrite Hsep, Hemit. f_equal.
      apply IH. intros k' Hk'. apply Hks. now right.
Qed.

Lemma chars_join (sep : string) (ks : list string) (c : ascii) :
  In c (list_ascii_of_string (join sep ks)) ->
  In c (list_ascii_of_string sep)
  \/ exists k, In k ks /\ In c (list_ascii_of_string k).
Proof.
  unfold join. induction ks as [|k ks IH]; simpl.
  - intros [].
  - destruct ks as [|k2 ks].
    + intros H. right. exists k. tauto.
    + rewrite !chars_append, !in_app_iff. intros [H | [H | H]].
      * right. exists k. tauto.
      * now left.
      * destruct (IH H) as [Hs | [k' [Hk' Hc]]]; [now left|].
        right. exists k'. tauto.
Qed.

Lemma map_chars_fixed (f : ascii -> ascii) (s : string) :
  (forall c, In c (list_ascii_of_string s) -> f c = c) -> map_chars f s = s.
Proof.
  induction s as [|a s IH]; intros H; simpl; [reflexivity|].
  rewrite (H a) by now left. f_equal. apply IH. intros c Hc. apply H. now right.
Qed.

Lemma keyword_char_facts (c : ascii) :
  in_range 97 122 c || is_digit c || (code c =? 95)%N = true ->
  char_toLowerCase c = c /\ is_word c = true.
Proof.
  destruct c as [[] [] [] [] [] [] [] []]; vm_compute; intuition congruence.
Qed.

Lemma dedup_seen_NoDup_id (l seen : list string) :
  NoDup l -> (forall x, In x l -> ~ In x seen) -> dedup_seen seen l = l.
Proof.
  revert seen. induction l as [|x l IH]; intros seen Hnd Hdis; simpl; [reflexivity|].
  inversion Hnd as [|? ? Hx Hnd']; subst.
  replace (mem x seen) with false
    by (symmetry; apply mem_false; apply Hdis; now left).
  f_equal. apply IH; [exact Hnd'|].
  intros y Hy [<- | Hin]; [contradiction|].
  apply (Hdis y); [now right | exact Hin].
Qed.

(** Keywords joined by spaces are extracted unchanged: extraction is
    idempotent. *)
Theorem extractKeywords_idempotent (text : string) :
  extractKeywords (join " " (extractKeywords text)) = extractKeywords text.
Proof.
  set (ks := extractKeywords text).
  assert (Hwf : forall k, In k ks ->
                  significant k = true
                  /\ forall c, In c (list_ascii_of_string k) ->
                               char_toLowerCase c = c /\ is_word c = true).
  { intros k Hk. split.
    - unfold ks in Hk. rewrite extractKeywords_keywords_of in Hk.
      now apply keywords_of_In in Hk.
    - intros c Hc. apply keyword_char_facts.
      now apply (extractKeywords_In_facts text k Hk). }
  rewrite extractKeywords_keywords_of. unfold keywords_of.
  assert (Hlow : toLowerCase (join " " ks) = join " " ks).
  { apply map_chars_fixed. intros c Hc. apply chars_join in Hc.
    destruct Hc as [[<- | []] | [k [Hk Hc]]]; [reflexivity|].
    now apply (Hwf k Hk). }
  rewrite Hlow, (tokens_join is_word " "%char ks eq_refl).
  - rewrite filter_keep_all by (intros k Hk; now apply Hwf).
    unfold dedup. rewrite dedup_seen_NoDup_id.
    + apply firstn_all2, extractKeywords_length.
    + apply extractKeywords_NoDup.
    + intros x _ [].
  - intros k Hk. destruct (Hwf k Hk) as [Hsig Hch]. split.
    + now apply significant_nonempty.
    + intros c Hc. now apply Hch.
Qed.

(** ** ATS report *)

Lemma missing_filter_nil (resumeKeywords jobKeywords : list string) :
  resumeKeywords <> [] ->
  filter (fun keyword =>
            negb (existsb (fun resumeKeyword =>
                             includes resumeKeyword keyword || includes keyword keyword)
                          resumeKeywords))
         jobKeywords = [].
Proof.
  intros Hr. apply filter_none. intros k.
  apply negb_false_iff, existsb_all_true; [exact Hr|].
  intros rk. now rewrite includes_refl, orb_true_r.
Qed.

(** Whatever the job description says, [keywordMatches] holds the first
    10 resume keywords as soon as the description yields one keyword,
    and nothing when it yields none. *)
Theorem ats_keywordMatches_ignore_description (r : ResumeData) (jd : string) :
  keywordMatches (analyzeATS r jd)
  = Some (match extractKeywords jd with
          | [] => []
          | _ :: _ => firstn 10 (extractKeywords (resumeText r))
          end).
Proof.
  destruct (extractKeywords jd) as [|j jk] eqn:Hj.
  - unfold analyzeATS. cbn [keywordMatches]. rewrite Hj.
    now rewrite filter_none.
  - rewrite analyzeATS_keywordMatches; [reflexivity|]. rewrite Hj. discriminate.
Qed.

(** The ATS suggestions always end with the two general tips, after at
    most four findings: the cut at 6 never drops anything. *)
Theorem ats_suggestions_end_with_tips (r : ResumeData) (jd : string) :
  exists findings : list string,
    suggestions (analyzeATS r jd)
    = findings
        ++ [ "Use action verbs to start bullet points (achieved, managed, developed, etc.)";
             "Ensure consistent formatting and remove any typos" ]
    /\ (length findings <= 4)%nat.
Proof.
  unfold analyzeATS. cbn [suggestions].
  generalize (slice0 8
                (filter (fun keyword =>
                           negb (existsb (fun resumeKeyword =>
                                            includes resumeKeyword keyword
                                            || includes keyword keyword)
                                         (extractKeywords (resumeText r))))
                        (extractKeywords jd))).
  intros missing. unfold generateATSSuggestions, push_if, slice0.
  split_ifs; cbn [app firstn];
    match goal with
    | |- exists findings, ?l = _ /\ _ =>
        exists (firstn (length l - 2) l); split; [reflexivity | simpl; lia]
    end.
Qed.

(** When the resume yields a keyword, no suggestion ever names a
    keyword to include, whatever the job description asks for. *)
Theorem ats_no_keyword_callout (r : ResumeData) (jd : string) :
  extractKeywords (resumeText r) <> [] ->
  Forall (fun s => startsWith s "Include these relevant keywords: " = false)
         (suggestions (analyzeATS r jd)).
Proof.
  intros Hr. unfold analyzeATS. cbn [suggestions].
  rewrite (missing_filter_nil _ _ Hr).
  unfold generateATSSuggestions, push_if, slice0. cbn [firstn length Nat.ltb Nat.leb].
  split_ifs; cbn [app firstn]; repeat constructor.
Qed.

Lemma ats_no_keyword_callout_witness :
  Forall (fun s => startsWith s "Include these relevant keywords: " = false)
         (suggestions (analyzeATS (with_summary "python django")
                                  "Java Spring Boot microservices")).
Proof.
  apply (ats_no_keyword_callout (with_summary "python django")).
  vm_compute. discriminate.
Defined.

(** When the resume yields no keyword at all, the first 8 job keywords
    are reported missing and, if there is one, the first suggestion
    names the first 5 of them. *)
Theorem ats_report_without_resume_keywords (r : ResumeData) (jd : string) :
  extractKeywords (resumeText r) = [] ->
  missingKeywords (analyzeATS r jd) = Some (firstn 8 (extractKeywords jd))
  /\ keywordMatches (analyzeATS r jd) = Some []
  /\ match extractKeywords jd with
     | [] => True
     | _ :: _ =>
         hd_error (suggestions (analyzeATS r jd))
         = Some ("Include these relevant keywords: "
                   ++ join ", " (firstn 5 (extractKeywords jd)))%string
     end.
Proof.
  intros Hr. unfold analyzeATS. cbn [missingKeywords keywordMatches suggestions].
  rewrite Hr. cbn [existsb negb filter]. unfold slice0 at 1 2 3.
  rewrite filter_keep_all by reflexivity.
  split; [reflexivity|]. split; [reflexivity|].
  destruct (extractKeywords jd) as [|j jk]; [exact I|].
  unfold generateATSSuggestions, push_if, slice0.
  rewrite firstn_firstn.
  change (0 <? length (firstn 8 (j :: jk)))%nat with true.
  change (Nat.min 5 8) with 5%nat.
  split_ifs; reflexivity.
Qed.

Lemma ats_report_without_resume_keywords_witness :
  missingKeywords (analyzeATS initialResumeData "Java Spring Boot microservices")
  = Some ["java"; "spring"; "boot"; "microservices"].
Proof.
  destruct (ats_report_without_resume_keywords initialResumeData
              "Java Spring Boot microservices") as [H _].
  - reflexivity.
  - rewrite H. reflexivity.
Defined.

(** ** Running an analysis *)

Lemma trimEnd_empty (s : string) :
  trimEnd s = EmptyString ->
  forall c, In c (list_ascii_of_string s) -> is_space c = true.
Proof.
  induction s as [|a s IH]; simpl; [intros _ c []|].
  destruct (trimEnd s) as [|d t]; [|discriminate].
  destruct (is_space a) eqn:Ha; [|discriminate].
  intros _ c [<- | Hc]; [exact Ha | now apply IH].
Qed.

Lemma trimStart_spaces (s : string) :
  (forall c, In c (list_ascii_of_string (trimStart s)) -> is_space c = true) ->
  forall c, In c (list_ascii_of_string s) -> is_space c = true.
Proof.
  induction s as [|a s IH]; simpl; [intros _ c []|].
  destruct (is_space a) eqn:Ha.
  - intros H c [<- | Hc]; [exact Ha | now apply IH].
  - intros H. exact H.
Qed.

Lemma space_not_word_lower (c : ascii) :
  is_space c = true -> is_word (char_toLowerCase c) = false.
Proof.
  destruct c as [[] [] [] [] [] [] [] []]; vm_compute; congruence.
Qed.

Lemma tokens_from_nothing_kept (keep : ascii -> bool) (s : string) :
  (forall c, In c (list_ascii_of_string s) -> keep c = false) ->
  tokens_from keep EmptyString s = [].
Proof.
  induction s as [|a s IH]; intros H; simpl; [reflexivity|].
  rewrite (H a) by now left. simpl. apply IH. intros c Hc. apply H. now right.
Qed.

(** A blank text yields no keyword. *)
Lemma blank_no_keywords (text : string) :
  trim text = EmptyString -> extractKeywords text = [].
Proof.
  intros Hb. rewrite extractKeywords_keywords_of. unfold keywords_of, tokens.
  rewrite tokens_from_nothing_kept; [reflexivity|].
  intros c Hc. unfold toLowerCase in Hc. rewrite chars_map_chars in Hc.
  apply in_map_iff in Hc. destruct Hc as [d [<- Hd]].
  apply space_not_word_lower. revert d Hd.
  apply trimStart_spaces, trimEnd_empty. exact Hb.
Qed.

(** [analyzeResume] gives no ATS result for a blank job description,
    and such a description is one that yields no keyword. *)
Theorem analyzeResume_blank_description (r : ResumeData) (jd : string) :
  trim jd = EmptyString ->
  analyzeResume ats jd r = None /\ extractKeywords jd = [].
Proof.
  intros Hb. split; [|now apply blank_no_keywords].
  unfold analyzeResume. now rewrite Hb.
Qed.

Lemma analyzeResume_blank_description_witness :
  analyzeResume ats "   " full_resume = None /\ extractKeywords "   " = [].
Proof. apply (analyzeResume_blank_description full_resume "   "). reflexivity. Defined.

(** The guard of [analyzeResume] lets through every description that is
    not blank; when such a description yields no keyword (stop-words,
    short words, punctuation) the result it stores has the score [NaN]. *)
Theorem analyzeResume_stores_nan_score (r : ResumeData) (jd : string) :
  trim jd <> EmptyString ->
  extractKeywords jd = [] ->
  exists result,
    analyzeResume ats jd r = Some result /\ score result = NaN.
Proof.
  intros Hnb Hj. exists (analyzeATS r jd). split.
  - unfold analyzeResume. destruct (trim jd); [congruence | reflexivity].
  - rewrite analyzeATS_score, Hj. apply calculateATSScore_no_job_keywords.
Qed.

Lemma analyzeResume_stores_nan_score_witness :
  exists result,
    analyzeResume ats "to be, or to do?" full_resume = Some result
    /\ score result = NaN.
Proof.
  apply (analyzeResume_stores_nan_score full_resume "to be, or to do?").
  - vm_compute. discriminate.
  - reflexivity.
Defined.

(** ** Saving, loading and deleting from the builder *)

Lemma updateResume_ids (now id name : string) (data : ResumeData)
      (resumes : list SavedResume.t) :
  map SavedResume.id (updateResume now id name data resumes)
  = map SavedResume.id resumes.
Proof.
  destruct (split_at_first (fun r => String.eqb (SavedResume.id r) id) resumes)
    as [Hall | [pre [old [post [-> [Hpre Hold]]]]]].
  - now rewrite (updateResume_missing _ _ _ _ _ Hall).
  - apply String.eqb_eq in Hold.
    rewrite (updateResume_found now id name data pre post old Hpre Hold).
    rewrite !map_app. simpl. now rewrite Hold.
Qed.

Lemma updateResume_load_stored (now id name : string) (data : ResumeData)
      (resumes : list SavedResume.t) :
  In id (map SavedResume.id resumes) ->
  loadResume id (updateResume now id name data resumes) = Some data.
Proof.
  intros Hin.
  destruct (split_at_first (fun r => String.eqb (SavedResume.id r) id) resumes)
    as [Hall | [pre [old [post [-> [Hpre Hold]]]]]].
  - apply in_map_iff in Hin. destruct Hin as [x [Hx Hin]].
    pose proof (Hall x Hin) as Hf. rewrite Hx, String.eqb_refl in Hf. discriminate.
  - apply String.eqb_eq in Hold.
    rewrite (updateResume_found now id name data pre post old Hpre Hold).
    unfold loadResume. rewrite find_app_skip by assumption. simpl.
    now rewrite String.eqb_refl.
Qed.

Lemma stored_iff (id : string) (resumes : list SavedResume.t) :
  (exists r, In r resumes /\ SavedResume.id r = id)
  <-> In id (map SavedResume.id resumes).
Proof.
  rewrite in_map_iff. split; intros [r [H1 H2]]; exists r; tauto.
Qed.

Lemma current_truthy_some (st : App.state) (cur : string) :
  App.current_truthy st = Some cur -> App.currentResumeId st = Some cur.
Proof.
  unfold App.current_truthy. destruct (App.currentResumeId st) as [c|]; [|discriminate].
  destruct (truthy c); [now intros [= ->] | discriminate].
Qed.

Lemma run_keeps_current_stored (getTime : string -> Z) (a : App.action)
      (st : App.state) :
  App.current_is_stored st -> App.current_is_stored (App.run getTime a st).
Proof.
  unfold App.current_is_stored. intros Hinv.
  destruct a as [|id now|id|id| |name|update]; simpl; try exact Hinv; try exact I.
  - (* save *)
    unfold App.handleSaveResume.
    destruct (negb (truthy (trim (App.resumeName st)))); [exact Hinv|].
    destruct (App.current_truthy st) as [cur|] eqn:Hcur; simpl.
    + apply current_truthy_some in Hcur. rewrite Hcur in *.
      apply stored_iff. rewrite updateResume_ids. now apply stored_iff.
    + eexists. split; [apply in_or_app; right; now left | reflexivity].
  - (* load *)
    unfold App.handleLoadResume, loadResume.
    destruct (find _ (App.storage st)) as [r|] eqn:Hf; simpl; [|exact Hinv].
    apply find_some in Hf. destruct Hf as [Hin Hid]. apply String.eqb_eq in Hid.
    now exists r.
  - (* delete *)
    unfold App.handleDeleteResume, App.option_string_eqb. simpl.
    destruct (App.currentResumeId st) as [c|]; [|exact I].
    destruct (String.eqb c id) eqn:Hc; [exact I|].
    destruct Hinv as [r [Hin Hid]]. exists r. split; [|exact Hid].
    unfold deleteResume. apply filter_In. split; [exact Hin|].
    now rewrite Hid, Hc.
Qed.

(** Whatever the user does from a fresh page, the resume being edited,
    when there is one, is a resume of the storage: "Update" never
    targets a resume that the builder itself has deleted. *)
Theorem current_resume_is_always_stored (getTime : string -> Z)
        (actions : list App.action) (cell : list SavedResume.t) :
  App.current_is_stored (App.run_all getTime actions (App.initial cell)).
Proof.
  unfold App.run_all.
  assert (H : forall st, App.current_is_stored st ->
                         App.current_is_stored
                           (fold_left (fun s a => App.run getTime a s) actions st)).
  { induction actions as [|a actions IH]; intros st Hst; simpl; [exact Hst|].
    apply IH. now apply run_keeps_current_stored. }
  apply H. exact I.
Qed.

Lemma run_keeps_list_in_sync (getTime : string -> Z) (a : App.action)
      (st : App.state) :
  App.savedResumes st = App.getAllResumes getTime (App.storage st) ->
  App.savedResumes (App.run getTime a st)
  = App.getAllResumes getTime (App.storage (App.run getTime a st)).
Proof.
  intros Hinv.
  destruct a as [|id now|id|id| |name|update]; simpl; try exact Hinv; try reflexivity.
  - unfold App.handleSaveResume.
    destruct (negb (truthy (trim (App.resumeName st)))); [exact Hinv|].
    destruct (App.current_truthy st); reflexivity.
  - unfold App.handleLoadResume.
    destruct (loadResume id (App.storage st)); exact Hinv.
Qed.

(** Once the page has mounted, the list of saved resumes it shows is,
    after every action, the content of the storage, latest first. *)
Theorem saved_list_is_always_in_sync (getTime : string -> Z)
        (actions : list App.action) (cell : list SavedResume.t) :
  App.savedResumes (App.run_all getTime (App.Mount :: actions) (App.initial cell))
  = App.getAllResumes getTime
      (App.storage (App.run_all getTime (App.Mount :: actions) (App.initial cell))).
Proof.
  unfold App.run_all. simpl fold_left at 1 2.
  assert (H : forall st,
             App.savedResumes st = App.getAllResumes getTime (App.storage st) ->
             App.savedResumes (fold_left (fun s a => App.run getTime a s) actions st)
             = App.getAllResumes getTime
                 (App.storage (fold_left (fun s a => App.run getTime a s) actions st))).
  { induction actions as [|a actions IH]; intros st Hst; simpl; [exact Hst|].
    apply IH. now apply run_keeps_list_in_sync. }
  apply H. reflexivity.
Qed.

(** Saving with a name that is not blank stores the resume as it is on
    screen under the current id, provided the state is one the builder
    can reach and a newly drawn id is not already in use. *)
Theorem handleSaveResume_persists (getTime : string -> Z) (id now : string)
        (st : App.state) :
  App.current_is_stored st ->
  trim (App.resumeName st) <> EmptyString ->
  (App.current_truthy st = None -> ~ In id (map SavedResume.id (App.storage st))) ->
  exists cur,
    App.currentResumeId (App.handleSaveResume getTime id now st) = Some cur
    /\ loadResume cur (App.storage (App.handleSaveResume getTime id now st))
       = Some (App.resumeData st).
Proof.
  intros Hinv Hname Hfresh. unfold App.handleSaveResume.
  destruct (trim (App.resumeName st)) as [|c t]; [congruence|]. simpl negb. cbv iota.
  destruct (App.current_truthy st) as [cur|] eqn:Hcur; simpl.
  - apply current_truthy_some in Hcur. exists cur. split; [exact Hcur|].
    apply updateResume_load_stored. apply stored_iff.
    unfold App.current_is_stored in Hinv. now rewrite Hcur in Hinv.
  - exists id. split; [reflexivity|].
    unfold loadResume. rewrite find_app_skip; [simpl; now rewrite String.eqb_refl|].
    intros y Hy. apply negb_true_iff.
    now apply (negb_eqb_fresh SavedResume.id id (App.storage st) (Hfresh eq_refl)).
Qed.

Lemma handleSaveResume_persists_witness :
  exists cur,
    App.currentResumeId
      (App.handleSaveResume (fun _ => 0%Z) "7" "t7"
         (App.mkState full_resume 0 None [] None true false "my cv" false false []))
    = Some cur
    /\ loadResume cur
         (App.storage
            (App.handleSaveResume (fun _ => 0%Z) "7" "t7"
               (App.mkState full_resume 0 None [] None true false "my cv" false false [])))
       = Some full_resume.
Proof.
  apply (handleSaveResume_persists (fun _ => 0%Z) "7" "t7"
           (App.mkState full_resume 0 None [] None true false "my cv" false false [])).
  - exact I.
  - vm_compute. discriminate.
  - intros _ [].
Defined.

(** When the current id is no longer in the storage (deleted from
    another page), "Update" stores nothing, and still closes the dialog
    and clears the name as after a successful save. *)
Theorem handleSaveResume_on_missing_resume (getTime : string -> Z) (id now cur : string)
        (st : App.state) :
  App.current_truthy st = Some cur ->
  ~ In cur (map SavedResume.id (App.storage st)) ->
  trim (App.resumeName st) <> EmptyString ->
  App.storage (App.handleSaveResume getTime id now st) = App.storage st
  /\ App.saveDialogOpen (App.handleSaveResume getTime id now st) = false
  /\ App.resumeName (App.handleSaveResume getTime id now st) = EmptyString.
Proof.
  intros Hcur Hmissing Hname. unfold App.handleSaveResume.
  destruct (trim (App.resumeName st)) as [|c t]; [congruence|]. simpl negb. cbv iota.
  rewrite Hcur. simpl. repeat split.
  apply updateResume_missing. intros y Hy. apply negb_true_iff.
  now apply (negb_eqb_fresh SavedResume.id cur (App.storage st) Hmissing).
Qed.

Lemma handleSaveResume_on_missing_resume_witness :
  App.storage
    (App.handleSaveResume (fun _ => 0%Z) "7" "t7"
       (App.mkState full_resume 0 None [] (Some "3") true false "my cv" false false []))
  = [].
Proof.
  destruct (handleSaveResume_on_missing_resume (fun _ => 0%Z) "7" "t7" "3"
              (App.mkState full_resume 0 None [] (Some "3") true false "my cv"
                           false false [])) as [H _].
  - reflexivity.
  - intros [].
  - vm_compute. discriminate.
  - exact H.
Defined.

(** ** General suggestions *)

(** A resume that earns every delta of the general score is only ever
    advised on the wording of its experience, besides the two closing
    tips. *)
Theorem general_top_tally_suggestions (r : ResumeData) :
  t_score (general_tally r) = 120%Z ->
  Forall (fun s =>
            In s [ "Provide more detailed descriptions of your accomplishments in each role";
                   "Start experience descriptions with strong action verbs";
                   "Tailor your resume for each job application";
                   "Keep your resume to 1-2 pages for optimal readability" ])
         (suggestions (analyzeGeneral r)).
Proof.
  rewrite general_tally_score.
  destruct (truthy (PersonalInfo.summary (personalInfo r))) eqn:Hs;
    destruct (100 <? String.length (PersonalInfo.summary (personalInfo r)))%nat eqn:Hl;
    destruct (truthy (PersonalInfo.linkedin (personalInfo r))) eqn:Hk;
    simpl andb; split_ifs; intros Htop; try lia.
  leb_facts. unfold analyzeGeneral. cbn [suggestions].
  unfold generateGeneralSuggestions, push_if, slice0. rewrite Hs, Hk. simpl negb.
  split_ifs; leb_facts; try lia; cbn [app firstn];
    repeat (apply Forall_cons;
            [simpl; repeat (first [left; reflexivity | right]) |]);
    apply Forall_nil.
Qed.

Lemma general_top_tally_suggestions_witness :
  Forall (fun s =>
            In s [ "Provide more detailed descriptions of your accomplishments in each role";
                   "Start experience descriptions with strong action verbs";
                   "Tailor your resume for each job application";
                   "Keep your resume to 1-2 pages for optimal readability" ])
         (suggestions (analyzeGeneral full_resume)).
Proof. apply (general_top_tally_suggestions full_resume). reflexivity. Defined.

(** ** Contact fields *)

(** Both analyses read the summary, and the general one the LinkedIn
    field; no other field of the personal information changes a result:
    name, e-mail, phone, location and web site never reach the scores,
    the keywords or the suggestions. *)
Theorem analyses_ignore_contact_fields (field : PersonalInfoKey.t) (value jd : string)
        (r : ResumeData) :
  field <> PersonalInfoKey.summary ->
  field <> PersonalInfoKey.linkedin ->
  analyzeGeneral (updatePersonalInfo field value r) = analyzeGeneral r
  /\ analyzeATS (updatePersonalInfo field value r) jd = analyzeATS r jd.
Proof.
  intros Hs Hl. destruct r as [[a b c d e f g] exps edus sks].
  destruct field; try congruence; split; reflexivity.
Qed.

Lemma analyses_ignore_contact_fields_witness :
  analyzeGeneral (updatePersonalInfo PersonalInfoKey.email "ada@example.org" full_resume)
  = analyzeGeneral full_resume
  /\ analyzeATS (updatePersonalInfo PersonalInfoKey.email "ada@example.org" full_resume)
                "rust engineer"
     = analyzeATS full_resume "rust engineer".
Proof.
  apply (analyses_ignore_contact_fields PersonalInfoKey.email "ada@example.org"
           "rust engineer" full_resume); discriminate.
Defined.
